(** * FemtoDerived: schema and dynamic columns of the femto-dream data model

    Shallow embedding of [PWGCF/DataModel/FemtoDerived.h].

    The header declares enumerations with their parallel name tables, typed
    columns, dynamic columns (lambdas over stored columns) and the tables
    that bind them.  Scalars of C++ type [float] are IEEE-754 binary32 values,
    modelled with the specification floats of the core library at precision 24
    and maximal exponent 128.  The functions of [<cmath>] are not part of the
    header: they are a parameter of the development. *)

From Stdlib Require Import ZArith Bool List String Ascii Lia.
From Stdlib Require Import Reals Machin Lra.
From Stdlib Require Import Floats.SpecFloat.
Import ListNotations.

Local Open Scope Z_scope.

(** ** binary32 *)

Module F32.

Definition prec : Z := 24.
Definition emax : Z := 128.

(** A specification float is a signed zero, a signed infinity, a finite
    value or NaN.  There is one NaN: the sign bit and the payload of a C++
    NaN are not modelled, so that an equality between two NaN results says
    that both are NaN and nothing about their bits. *)
Definition float := spec_float.

Definition mul : float -> float -> float := SFmul prec emax.
Definition div : float -> float -> float := SFdiv prec emax.
Definition opp : float -> float := SFopp.

(** Conversion of an integer to [float], round to nearest even. *)
Definition of_Z (z : Z) : float := binary_normalize prec emax z 0 false.

Definition zero : float := S754_zero false.
Definition one : float := of_Z 1.
Definition two : float := of_Z 2.
Definition pinf : float := S754_infinity false.
Definition nan : float := S754_nan.

Definition is_finite (x : float) : bool :=
  match x with
  | S754_zero _ | S754_finite _ _ _ => true
  | _ => false
  end.

Definition is_nan (x : float) : bool :=
  match x with
  | S754_nan => true
  | _ => false
  end.

(** A finite value is a binary32 value when its mantissa is canonical and
    its exponent in range. *)
Definition valid (x : float) : bool := valid_binary prec emax x.

(** The operators [==], [<] and [<=] of C++ on [float]. *)
Definition eqb : float -> float -> bool := SFeqb.
Definition ltb : float -> float -> bool := SFltb.
Definition leb : float -> float -> bool := SFleb.

(** Structural equality. *)
Definition same (x y : float) : bool :=
  match x, y with
  | S754_nan, S754_nan => true
  | S754_zero s, S754_zero t => Bool.eqb s t
  | S754_infinity s, S754_infinity t => Bool.eqb s t
  | S754_finite s m e, S754_finite t n f =>
      Bool.eqb s t && Pos.eqb m n && Z.eqb e f
  | _, _ => false
  end.

(** The real number a finite value stands for. *)
Definition to_R (x : float) : R :=
  match x with
  | S754_finite s m e =>
      ((if s then -1 else 1) * IZR (Zpos m) * powerRZ 2 e)%R
  | _ => 0%R
  end.

(** The binary32 values nearest to pi/4, pi/2 and pi:
    [0x3f490fdb], [0x3fc90fdb] and [0x40490fdb]. *)
Definition pi_4 : float := S754_finite false 13176795 (-24).
Definition pi_2 : float := S754_finite false 13176795 (-23).
Definition pi : float := S754_finite false 13176795 (-22).

End F32.

(** ** Pieces of C++ the header relies on *)

(** [uint8_t], [int32_t] (row indices) and [uint32_t] values. *)
Definition is_uint8 (z : Z) : bool := (0 <=? z) && (z <=? 255).
Definition is_int32 (z : Z) : bool := (-2147483648 <=? z) && (z <=? 2147483647).
Definition is_uint32 (z : Z) : bool := (0 <=? z) && (z <=? 4294967295).

(** Aggregate initialisation of [std::string_view a[n] = {...}]: the
    initialisers fill the first slots, the remaining slots are
    value-initialised (empty views); more initialisers than slots is
    ill-formed. *)
Definition aggregate_init (n : Z) (inits : list string) : option (list string) :=
  if Z.of_nat (List.length inits) <=? n
  then Some (inits ++ repeat EmptyString (Z.to_nat n - List.length inits))
  else None.

Definition array_of (a : option (list string)) : list string :=
  match a with
  | Some l => l
  | None => []
  end.

(** [a[i]]: defined inside the bounds of the array only. *)
Definition subscript (a : list string) (i : Z) : option string :=
  if i <? 0 then None else nth_error a (Z.to_nat i).

(** ** Arithmetic of the dynamic columns

    The lambdas of the header are written once, over the operations they use.
    [binary32] is the arithmetic of the program: IEEE-754 operations on
    [float] and the [float] overloads of [<cmath>].  [exact] evaluates the
    same expressions over the real numbers. *)

Record Libm : Type := {
  m_sin : F32.float -> F32.float;
  m_cos : F32.float -> F32.float;
  m_sinh : F32.float -> F32.float;
  m_cosh : F32.float -> F32.float;
  m_atan : F32.float -> F32.float;
  m_exp : F32.float -> F32.float
}.

Record Arith : Type := {
  num :> Type;
  a_lit : Z -> num;          (* literals [2.f] and the casts [(float)n] *)
  a_mul : num -> num -> num;
  a_div : num -> num -> num;
  a_opp : num -> num;
  a_sin : num -> num;
  a_cos : num -> num;
  a_sinh : num -> num;
  a_cosh : num -> num;
  a_atan : num -> num;
  a_exp : num -> num
}.

Definition binary32 (m : Libm) : Arith := {|
  num := F32.float;
  a_lit := F32.of_Z;
  a_mul := F32.mul;
  a_div := F32.div;
  a_opp := F32.opp;
  a_sin := m_sin m;
  a_cos := m_cos m;
  a_sinh := m_sinh m;
  a_cosh := m_cosh m;
  a_atan := m_atan m;
  a_exp := m_exp m
|}.

Definition exact : Arith := {|
  num := R;
  a_lit := IZR;
  a_mul := Rmult;
  a_div := Rdiv;
  a_opp := Ropp;
  a_sin := sin;
  a_cos := cos;
  a_sinh := sinh;
  a_cosh := cosh;
  a_atan := atan;
  a_exp := exp
|}.

Declare Scope arith_scope.
Delimit Scope arith_scope with ar.
Notation "x * y" := (a_mul _ x y) : arith_scope.
Notation "x / y" := (a_div _ x y) : arith_scope.
Notation "- x" := (a_opp _ x) : arith_scope.

(** ** namespace femtodreamcollision *)

Module femtodreamcollision.

(** Methods for the event mixing. *)
Inductive CollisionBinning : Set :=
| kMult
| kMultPercentile
| kMultMultPercentile
| kNCollisionBinning.

Definition CollisionBinning_value (b : CollisionBinning) : Z :=
  match b with
  | kMult => 0
  | kMultPercentile => 1
  | kMultMultPercentile => 2
  | kNCollisionBinning => 3
  end.

End femtodreamcollision.

(** ** namespace femtodreamparticle *)

Module femtodreamparticle.

(** Distinguishes the different particle types.  An unscoped enumeration
    without initialisers: the enumerators count from 0 in the order of
    declaration, so that the last one is the number of particle types. *)
Inductive ParticleType : Set :=
| kTrack
| kV0
| kV0Child
| kCascade
| kCascadeBachelor
| kCharmHadron
| kNParticleTypes.

Definition ParticleType_enumerators : list ParticleType :=
  [kTrack; kV0; kV0Child; kCascade; kCascadeBachelor; kCharmHadron;
   kNParticleTypes].

Definition ParticleType_value (t : ParticleType) : Z :=
  match t with
  | kTrack => 0
  | kV0 => 1
  | kV0Child => 2
  | kCascade => 3
  | kCascadeBachelor => 4
  | kCharmHadron => 5
  | kNParticleTypes => 6
  end.

(** The particle kinds are the enumerators below the counting one. *)
Definition is_particle_kind (t : ParticleType) : bool :=
  ParticleType_value t <? ParticleType_value kNParticleTypes.

(** The kind a stored [partType] stands for, if any. *)
Definition ParticleType_of_Z (v : Z) : option ParticleType :=
  find (fun t => is_particle_kind t && (ParticleType_value t =? v))
       ParticleType_enumerators.

Inductive MomentumType : Set :=
| kPt
| kPreco
| kPtpc.

(** Naming of the different particle types. *)
Definition ParticleTypeName : list string :=
  array_of (aggregate_init (ParticleType_value kNParticleTypes)
    ["Tracks"; "V0"; "V0Child"; "Cascade"; "CascadeBachelor";
     "CharmHadron"]%string).

Definition TempFitVarName : list string :=
  array_of (aggregate_init (ParticleType_value kNParticleTypes - 1)
    ["/hDCAxy"; "/hCPA"; "/hDCAxy"; "/hCPA"; "/hDCAxy"]%string).

Inductive TrackType : Set :=
| kNoChild
| kPosChild
| kNegChild
| kNTrackTypes.

Definition TrackType_value (t : TrackType) : Z :=
  match t with
  | kNoChild => 0
  | kPosChild => 1
  | kNegChild => 2
  | kNTrackTypes => 3
  end.

Definition TrackTypeName : list string :=
  array_of (aggregate_init (TrackType_value kNTrackTypes)
    ["Trk"; "Pos"; "Neg"]%string).

(** *** Dynamic columns *)

Section DynamicColumns.

Variable A : Arith.
Local Open Scope arith_scope.

(** Compute the theta of the track. *)
Definition Theta (eta : A) : A :=
  a_lit A 2 * a_atan A (a_exp A (- eta)).

(** Compute the momentum in x in GeV/c. *)
Definition Px (pt phi : A) : A := pt * a_sin A phi.

(** Compute the momentum in y in GeV/c. *)
Definition Py (pt phi : A) : A := pt * a_cos A phi.

(** Compute the momentum in z in GeV/c. *)
Definition Pz (pt eta : A) : A := pt * a_sinh A eta.

(** Compute the overall momentum in GeV/c. *)
Definition P (pt eta : A) : A := pt * a_cosh A eta.

(** Compute the number of crossed rows over findable TPC clusters; the
    arguments are [uint8_t] counts. *)
Definition TPCCrossedRowsOverFindableCls
    (tpcNClsFindable tpcNClsCrossedRows : Z) : A :=
  a_lit A tpcNClsCrossedRows / a_lit A tpcNClsFindable.

End DynamicColumns.

End femtodreamparticle.

(** ** namespace femtodreamMCparticle *)

Module femtodreamMCparticle.

(** Distinguishes the different particle origins. *)
Inductive ParticleOriginMCTruth : Set :=
| kPrimary
| kSecondary
| kMaterial
| kNotPrimary
| kFake
| kWrongCollision
| kSecondaryDaughterLambda
| kSecondaryDaughterSigmaplus
| kElse
| kNOriginMCTruthTypes.

Definition ParticleOriginMCTruth_enumerators : list ParticleOriginMCTruth :=
  [kPrimary; kSecondary; kMaterial; kNotPrimary; kFake; kWrongCollision;
   kSecondaryDaughterLambda; kSecondaryDaughterSigmaplus; kElse;
   kNOriginMCTruthTypes].

Definition ParticleOriginMCTruth_value (o : ParticleOriginMCTruth) : Z :=
  match o with
  | kPrimary => 0
  | kSecondary => 1
  | kMaterial => 2
  | kNotPrimary => 3
  | kFake => 4
  | kWrongCollision => 5
  | kSecondaryDaughterLambda => 6
  | kSecondaryDaughterSigmaplus => 7
  | kElse => 8
  | kNOriginMCTruthTypes => 9
  end.

(** The identifier of an enumerator, as written in the header. *)
Definition ParticleOriginMCTruth_ident (o : ParticleOriginMCTruth) : string :=
  match o with
  | kPrimary => "kPrimary"
  | kSecondary => "kSecondary"
  | kMaterial => "kMaterial"
  | kNotPrimary => "kNotPrimary"
  | kFake => "kFake"
  | kWrongCollision => "kWrongCollision"
  | kSecondaryDaughterLambda => "kSecondaryDaughterLambda"
  | kSecondaryDaughterSigmaplus => "kSecondaryDaughterSigmaplus"
  | kElse => "kElse"
  | kNOriginMCTruthTypes => "kNOriginMCTruthTypes"
  end%string.

Definition is_origin_kind (o : ParticleOriginMCTruth) : bool :=
  ParticleOriginMCTruth_value o <? ParticleOriginMCTruth_value kNOriginMCTruthTypes.

(** The origin a stored [partOriginMCTruth] stands for, if any. *)
Definition ParticleOriginMCTruth_of_Z (v : Z) : option ParticleOriginMCTruth :=
  find (fun o => is_origin_kind o && (ParticleOriginMCTruth_value o =? v))
       ParticleOriginMCTruth_enumerators.

(** Naming of the different OriginMCTruth types. *)
Definition ParticleOriginMCTruthName_initialisers : list string :=
  ["_Primary";
   "_Secondary";
   "_Material";
   "_NotPrimary";
   "_Fake";
   "_SecondaryDaughterLambda";
   "_SecondaryDaughterSigmaPlus"]%string.

Definition ParticleOriginMCTruthName : list string :=
  array_of (aggregate_init (ParticleOriginMCTruth_value kNOriginMCTruthTypes)
    ParticleOriginMCTruthName_initialisers).

(** The name an origin goes by: its identifier with the leading [k]
    replaced by an underscore, the convention the first five entries of
    the name table follow. *)
Definition own_name (o : ParticleOriginMCTruth) : string :=
  match ParticleOriginMCTruth_ident o with
  | String _ rest => String "_" rest
  | EmptyString => EmptyString
  end.

(** Distinguishes between reconstructed and truth. *)
Inductive MCType : Set :=
| kRecon
| kTruth
| kNMCTypes.

Definition MCType_value (t : MCType) : Z :=
  match t with
  | kRecon => 0
  | kTruth => 1
  | kNMCTypes => 2
  end.

Definition MCTypeName : list string :=
  array_of (aggregate_init (MCType_value kNMCTypes) [EmptyString; "_MC"%string]).

End femtodreamMCparticle.

(** ** Table declarations

    [DECLARE_SOA_TABLE(Name, origin, description, columns...)]: a table is
    known to the framework by its origin and description tags. *)

Record table : Type := {
  t_name : string;
  t_origin : string;
  t_description : string;
  t_columns : list string
}.

Section Tables.

Local Open Scope string_scope.

Definition FDCollisions : table := {|
  t_name := "FDCollisions"; t_origin := "AOD"; t_description := "FDCOLLISION";
  t_columns :=
    ["o2::soa::Index<>"; "o2::aod::collision::PosZ";
     "femtodreamcollision::MultV0M"; "femtodreamcollision::MultNtr";
     "femtodreamcollision::Sphericity"; "femtodreamcollision::MagField"] |}.

Definition FDColMasks : table := {|
  t_name := "FDColMasks"; t_origin := "AOD"; t_description := "FDCOLMASK";
  t_columns :=
    ["femtodreamcollision::BitMaskTrackOne";
     "femtodreamcollision::BitMaskTrackTwo";
     "femtodreamcollision::BitMaskTrackThree"] |}.

Definition FDDownSample : table := {|
  t_name := "FDDownSample"; t_origin := "AOD"; t_description := "FDDOWNSAMPLE";
  t_columns := ["femtodreamcollision::Downsample"] |}.

Definition FDHfCand : table := {|
  t_name := "FDHfCand"; t_origin := "AOD"; t_description := "FDHFCAND";
  t_columns :=
    ["o2::soa::Index<>"; "femtodreamparticle::FDCollisionId";
     "fdhf::Charge"; "fdhf::Prong0Id"; "fdhf::Prong1Id"; "fdhf::Prong2Id";
     "fdhf::Prong0Pt"; "fdhf::Prong1Pt"; "fdhf::Prong2Pt";
     "fdhf::Prong0Eta"; "fdhf::Prong1Eta"; "fdhf::Prong2Eta";
     "fdhf::Prong0Phi"; "fdhf::Prong1Phi"; "fdhf::Prong2Phi";
     "fdhf::CandidateSelFlag"; "fdhf::BDTBkg"; "fdhf::BDTPrompt";
     "fdhf::BDTFD"; "fdhf::M"; "fdhf::Pt"; "fdhf::P"; "fdhf::Eta";
     "fdhf::Phi"; "fdhf::Y"] |}.

Definition FDResultsHF : table := {|
  t_name := "FDResultsHF"; t_origin := "AOD"; t_description := "FDRESULTSHF";
  t_columns :=
    ["fdhf::M"; "fdhf::Pt"; "fdhf::PtAssoc"; "fdhf::BDTBkg";
     "fdhf::BDTPrompt"; "fdhf::BDTFD"; "fdhf::Correlation"; "fdhf::KT";
     "fdhf::MT"; "fdhf::Mult"; "fdhf::MultPercentile";
     "fdhf::PartPairSign"; "fdhf::ProcessType"] |}.

Definition FDHfCandMC : table := {|
  t_name := "FDHfCandMC"; t_origin := "AOD"; t_description := "FDHFCANDMC";
  t_columns := ["o2::soa::Index<>"; "fdhf::FlagMc"; "fdhf::OriginMcRec"] |}.

Definition FDHfCandMCGen : table := {|
  t_name := "FDHfCandMCGen"; t_origin := "AOD";
  t_description := "FDHFCANDMCGEN";
  t_columns :=
    ["femtodreamparticle::FDCollisionId"; "fdhf::Pt"; "fdhf::Eta";
     "fdhf::Phi"; "fdhf::Y"; "fdhf::FlagMc"; "fdhf::OriginMcGen"] |}.

Definition FDParticlesIndex : table := {|
  t_name := "FDParticlesIndex"; t_origin := "AOD";
  t_description := "FDPARTICLEINDEX";
  t_columns := ["o2::soa::Index<>"; "fdhf::TrackId"] |}.

Definition FDParticles : table := {|
  t_name := "FDParticles"; t_origin := "AOD"; t_description := "FDPARTICLE";
  t_columns :=
    ["o2::soa::Index<>"; "femtodreamparticle::FDCollisionId";
     "femtodreamparticle::Pt"; "femtodreamparticle::Eta";
     "femtodreamparticle::Phi"; "femtodreamparticle::PartType";
     "femtodreamparticle::Cut"; "femtodreamparticle::PIDCut";
     "femtodreamparticle::TempFitVar"; "femtodreamparticle::ChildrenIds";
     "femtodreamparticle::MLambda"; "femtodreamparticle::MAntiLambda";
     "femtodreamparticle::Theta<femtodreamparticle::Eta>";
     "femtodreamparticle::Px<femtodreamparticle::Pt, femtodreamparticle::Phi>";
     "femtodreamparticle::Py<femtodreamparticle::Pt, femtodreamparticle::Phi>";
     "femtodreamparticle::Pz<femtodreamparticle::Pt, femtodreamparticle::Eta>";
     "femtodreamparticle::P<femtodreamparticle::Pt, femtodreamparticle::Eta>"] |}.

Definition FDExtParticles : table := {|
  t_name := "FDExtParticles"; t_origin := "AOD";
  t_description := "FDEXTPARTICLE";
  t_columns :=
    ["femtodreamparticle::Sign"; "femtodreamparticle::TPCNClsFound";
     "track::TPCNClsFindable"; "femtodreamparticle::TPCNClsCrossedRows";
     "track::TPCNClsShared"; "track::TPCInnerParam";
     "femtodreamparticle::ITSNCls"; "femtodreamparticle::ITSNClsInnerBarrel";
     "track::DcaXY"; "track::DcaZ"; "track::TPCSignal";
     "femtodreamparticle::TPCNSigmaPi"; "femtodreamparticle::TPCNSigmaKa";
     "femtodreamparticle::TPCNSigmaPr"; "femtodreamparticle::TOFNSigmaPi";
     "femtodreamparticle::TOFNSigmaKa"; "femtodreamparticle::TOFNSigmaPr";
     "femtodreamparticle::TPCNSigmaEl"; "femtodreamparticle::TPCNSigmaDe";
     "femtodreamparticle::TOFNSigmaEl"; "femtodreamparticle::TOFNSigmaDe";
     "femtodreamparticle::DaughDCA"; "femtodreamparticle::TransRadius";
     "femtodreamparticle::DecayVtxX"; "femtodreamparticle::DecayVtxY";
     "femtodreamparticle::DecayVtxZ"; "femtodreamparticle::MKaon";
     "femtodreamparticle::TPCCrossedRowsOverFindableCls<track::TPCNClsFindable, femtodreamparticle::TPCNClsCrossedRows>"] |}.

Definition FDMCParticles : table := {|
  t_name := "FDMCParticles"; t_origin := "AOD";
  t_description := "FDMCPARTICLE";
  t_columns :=
    ["o2::soa::Index<>"; "femtodreamMCparticle::PartOriginMCTruth";
     "femtodreamMCparticle::PDGMCTruth"; "femtodreamparticle::Pt";
     "femtodreamparticle::Eta"; "femtodreamparticle::Phi"] |}.

Definition FDExtMCParticles : table := {|
  t_name := "FDExtMCParticles"; t_origin := "AOD";
  t_description := "FDEXTMCPARTICLE";
  t_columns := ["femtodreamMCparticle::MotherPDG"] |}.

Definition FDMCLabels : table := {|
  t_name := "FDMCLabels"; t_origin := "AOD"; t_description := "FDMCLabel";
  t_columns := ["mcfdlabel::FDMCParticleId"] |}.

Definition FDExtMCLabels : table := {|
  t_name := "FDExtMCLabels"; t_origin := "AOD";
  t_description := "FDExtMCLabel";
  t_columns := ["mcfdextlabel::FDExtMCParticleId"] |}.

Definition Hashes : table := {|
  t_name := "Hashes"; t_origin := "AOD"; t_description := "HASH";
  t_columns := ["hash::Bin"] |}.

(** Every table the header declares, in the order of declaration. *)
Definition declared_tables : list table :=
  [FDCollisions; FDColMasks; FDDownSample; FDHfCand; FDResultsHF;
   FDHfCandMC; FDHfCandMCGen; FDParticlesIndex; FDParticles;
   FDExtParticles; FDMCParticles; FDExtMCParticles; FDMCLabels;
   FDExtMCLabels; Hashes].

End Tables.

(** The tags of a table. *)
Definition tag_pair (t : table) : string * string :=
  (t_origin t, t_description t).

Definition tag_length_ok (lo hi : nat) (tag : string) : bool :=
  (lo <=? String.length tag)%nat && (String.length tag <=? hi)%nat.

(** No string occurs twice. *)
Fixpoint distinct (l : list string) : bool :=
  match l with
  | [] => true
  | x :: rest => negb (existsb (String.eqb x) rest) && distinct rest
  end.

(** ** Rows

    A row holds one value per stored column, of the column's C++ type; the
    position of a row in its table is its index.  Dynamic columns are not
    stored: an accessor applies the lambda to the stored columns the table
    declaration binds it to. *)

(** A row of [FDParticles]. *)
Record FDParticle : Type := {
  fdCollisionId : Z;            (* int32_t index into FDCollisions *)
  pt : F32.float;
  eta : F32.float;
  phi : F32.float;
  partType : Z;                 (* uint8_t *)
  cut : Z;                      (* cutContainerType = uint32_t *)
  pidcut : Z;                   (* cutContainerType = uint32_t *)
  tempFitVar : F32.float;
  childrenIds : list Z;         (* int32_t indices into FDParticles itself *)
  mLambda : F32.float;
  mAntiLambda : F32.float
}.

(** Every stored value is a value of its column's type. *)
Definition FDParticle_typed (r : FDParticle) : bool :=
  is_int32 (fdCollisionId r)
  && F32.valid (pt r) && F32.valid (eta r) && F32.valid (phi r)
  && is_uint8 (partType r)
  && is_uint32 (cut r) && is_uint32 (pidcut r)
  && F32.valid (tempFitVar r)
  && forallb is_int32 (childrenIds r)
  && F32.valid (mLambda r) && F32.valid (mAntiLambda r).

(** The table: rows in index order. *)
Definition FDParticles_typed (t : list FDParticle) : bool :=
  forallb FDParticle_typed t.

(** Row [i] lists [i] among its children. *)
Definition self_child (t : list FDParticle) (i : nat) : bool :=
  match nth_error t i with
  | Some r => existsb (Z.eqb (Z.of_nat i)) (childrenIds r)
  | None => false
  end.

(** A row of [FDMCParticles]. *)
Record FDMCParticle : Type := {
  partOriginMCTruth : Z;        (* uint8_t *)
  pdgMCTruth : Z;               (* int *)
  mc_pt : F32.float;
  mc_eta : F32.float;
  mc_phi : F32.float
}.

Definition FDMCParticle_typed (r : FDMCParticle) : bool :=
  is_uint8 (partOriginMCTruth r) && is_int32 (pdgMCTruth r)
  && F32.valid (mc_pt r) && F32.valid (mc_eta r) && F32.valid (mc_phi r).

(** The counts of a row of [FDExtParticles] that the crossed-rows ratio is
    bound to; the other columns of the table are not read by it. *)
Record FDExtParticle_counts : Type := {
  tpcNClsFindable : Z;          (* uint8_t, track::TPCNClsFindable *)
  tpcNClsCrossedRows : Z        (* uint8_t *)
}.

Definition FDExtParticle_counts_typed (r : FDExtParticle_counts) : bool :=
  is_uint8 (tpcNClsFindable r) && is_uint8 (tpcNClsCrossedRows r).

Section Accessors.

Variable libm : Libm.

Let A : Arith := binary32 libm.

(** [Theta<Eta>] *)
Definition theta (r : FDParticle) : F32.float :=
  femtodreamparticle.Theta A (eta r).

(** [Px<Pt, Phi>] *)
Definition px (r : FDParticle) : F32.float :=
  femtodreamparticle.Px A (pt r) (phi r).

(** [Py<Pt, Phi>] *)
Definition py (r : FDParticle) : F32.float :=
  femtodreamparticle.Py A (pt r) (phi r).

(** [Pz<Pt, Eta>] *)
Definition pz (r : FDParticle) : F32.float :=
  femtodreamparticle.Pz A (pt r) (eta r).

(** [P<Pt, Eta>] *)
Definition p (r : FDParticle) : F32.float :=
  femtodreamparticle.P A (pt r) (eta r).

(** [TPCCrossedRowsOverFindableCls<track::TPCNClsFindable,
    femtodreamparticle::TPCNClsCrossedRows>] *)
Definition tpcCrossedRowsOverFindableCls (r : FDExtParticle_counts) : F32.float :=
  femtodreamparticle.TPCCrossedRowsOverFindableCls A
    (tpcNClsFindable r) (tpcNClsCrossedRows r).

End Accessors.

(** ** A reference implementation of the [<cmath>] functions

    The header calls the [float] overloads of [sin], [cos], [sinh], [cosh],
    [atan] and [exp].  [RefLibm] evaluates them in fixed point with 256
    fractional bits and rounds the result to binary32; infinities, zeros and
    NaN are treated as Annex F of the C standard prescribes.  It serves to
    evaluate the dynamic columns on concrete rows. *)

Module RefLibm.

(** The integer [v] stands for [v / 2^256]. *)
Definition frac_bits : Z := 256.
Definition unit : Z := 2 ^ frac_bits.

Definition fx_mul (a b : Z) : Z := a * b / unit.
Definition fx_div (a b : Z) : Z := a * unit / b.

(** The magnitude [m * 2^e] of a finite binary32 value; exact, as
    [e >= -149]. *)
Definition fx_of_mag (m : positive) (e : Z) : Z :=
  Zpos m * 2 ^ (e + frac_bits).

(** Rounding of a non-negative fixed-point number, with the given sign. *)
Definition fx_round (s : bool) (v : Z) : F32.float :=
  binary_normalize F32.prec F32.emax (if s then - v else v) (- frac_bits) s.

(** [sum_{n < fuel} c n * x^n / n!], with [t = x^n / n!]. *)
Fixpoint taylor (c : Z -> Z) (x : Z) (fuel : nat) (n t acc : Z) : Z :=
  match fuel with
  | O => acc
  | S k => taylor c x k (n + 1) (fx_mul t x / (n + 1)) (acc + c n * t)
  end.

Definition c_exp (n : Z) : Z := 1.
Definition c_sinh (n : Z) : Z := if Z.odd n then 1 else 0.
Definition c_cosh (n : Z) : Z := if Z.even n then 1 else 0.
Definition c_sin (n : Z) : Z :=
  if n mod 4 =? 1 then 1 else if n mod 4 =? 3 then -1 else 0.
Definition c_cos (n : Z) : Z :=
  if n mod 4 =? 0 then 1 else if n mod 4 =? 2 then -1 else 0.

(** [sum_{k < fuel} (-1)^k z^(2k+1) / (2k+1)], with [pw = z^(2k+1)]. *)
Fixpoint atan_series (z2 : Z) (fuel : nat) (k pw acc : Z) : Z :=
  match fuel with
  | O => acc
  | S f =>
      atan_series z2 f (k + 1) (fx_mul pw z2)
        (acc + (if Z.even k then pw else - pw) / (2 * k + 1))
  end.

Definition atan_small (z : Z) : Z :=
  atan_series (fx_mul z z) 60 0 z 0.

(** Machin: pi/4 = 4 atan(1/5) - atan(1/239). *)
Definition fx_pi : Z :=
  Eval vm_compute in
    4 * (4 * atan_small (unit / 5) - atan_small (unit / 239)).

(** [atan y = 2 atan (y / (1 + sqrt (1 + y^2)))]. *)
Definition halve (y : Z) : Z :=
  fx_div y (unit + Z.sqrt (unit * unit + y * y)).

(** [atan] on [0, 1]. *)
Definition fx_atan01 (y : Z) : Z :=
  8 * atan_small (halve (halve (halve y))).

Definition fx_atan (x : Z) : Z :=
  if x <=? unit then fx_atan01 x
  else fx_pi / 2 - fx_atan01 (fx_div unit x).

Definition exp (x : F32.float) : F32.float :=
  match x with
  | S754_nan => S754_nan
  | S754_infinity true => S754_zero false
  | S754_infinity false => S754_infinity false
  | S754_zero _ => F32.one
  | S754_finite s m e =>
      let a := fx_of_mag m e in
      if s then
        if 104 * unit <? a then S754_zero false
        else fx_round false (fx_div unit (taylor c_exp a 500 0 unit 0))
      else
        if 89 * unit <? a then S754_infinity false
        else fx_round false (taylor c_exp a 500 0 unit 0)
  end.

Definition sinh (x : F32.float) : F32.float :=
  match x with
  | S754_finite s m e =>
      let a := fx_of_mag m e in
      if 90 * unit <? a then S754_infinity s
      else fx_round s (taylor c_sinh a 500 0 unit 0)
  | _ => x
  end.

Definition cosh (x : F32.float) : F32.float :=
  match x with
  | S754_nan => S754_nan
  | S754_infinity _ => S754_infinity false
  | S754_zero _ => F32.one
  | S754_finite _ m e =>
      let a := fx_of_mag m e in
      if 90 * unit <? a then S754_infinity false
      else fx_round false (taylor c_cosh a 500 0 unit 0)
  end.

(** The argument modulo [2 pi]. *)
Definition reduce (a : Z) : Z := a mod (2 * fx_pi).

Definition fx_signed_round (v : Z) : F32.float :=
  binary_normalize F32.prec F32.emax v (- frac_bits) false.

Definition sin (x : F32.float) : F32.float :=
  match x with
  | S754_nan | S754_infinity _ => S754_nan
  | S754_zero _ => x
  | S754_finite s m e =>
      let v := taylor c_sin (reduce (fx_of_mag m e)) 130 0 unit 0 in
      fx_signed_round (if s then - v else v)
  end.

Definition cos (x : F32.float) : F32.float :=
  match x with
  | S754_nan | S754_infinity _ => S754_nan
  | S754_zero _ => F32.one
  | S754_finite _ m e =>
      fx_signed_round (taylor c_cos (reduce (fx_of_mag m e)) 130 0 unit 0)
  end.

Definition atan (x : F32.float) : F32.float :=
  match x with
  | S754_nan => S754_nan
  | S754_infinity s => if s then F32.opp F32.pi_2 else F32.pi_2
  | S754_zero _ => x
  | S754_finite s m e => fx_round s (fx_atan (fx_of_mag m e))
  end.

Definition libm : Libm := {|
  m_sin := sin;
  m_cos := cos;
  m_sinh := sinh;
  m_cosh := cosh;
  m_atan := atan;
  m_exp := exp
|}.

End RefLibm.

(** ** Sample rows *)

(** The binary32 values 100 and 200. *)
Definition f_100 : F32.float := F32.of_Z 100.
Definition f_200 : F32.float := F32.of_Z 200.

(** A track with [pt = 1], [eta = 0], [phi = 0]. *)
Definition unit_track : FDParticle := {|
  fdCollisionId := 0;
  pt := F32.one;
  eta := F32.zero;
  phi := F32.zero;
  partType := femtodreamparticle.ParticleType_value femtodreamparticle.kTrack;
  cut := 0;
  pidcut := 0;
  tempFitVar := F32.zero;
  childrenIds := [];
  mLambda := F32.zero;
  mAntiLambda := F32.zero
|}.

Definition with_kinematics (r : FDParticle) (pt' eta' phi' : F32.float) : FDParticle := {|
  fdCollisionId := fdCollisionId r;
  pt := pt';
  eta := eta';
  phi := phi';
  partType := partType r;
  cut := cut r;
  pidcut := pidcut r;
  tempFitVar := tempFitVar r;
  childrenIds := childrenIds r;
  mLambda := mLambda r;
  mAntiLambda := mAntiLambda r
|}.

Definition with_partType (r : FDParticle) (v : Z) : FDParticle := {|
  fdCollisionId := fdCollisionId r;
  pt := pt r;
  eta := eta r;
  phi := phi r;
  partType := v;
  cut := cut r;
  pidcut := pidcut r;
  tempFitVar := tempFitVar r;
  childrenIds := childrenIds r;
  mLambda := mLambda r;
  mAntiLambda := mAntiLambda r
|}.

Definition with_children (r : FDParticle) (ids : list Z) : FDParticle := {|
  fdCollisionId := fdCollisionId r;
  pt := pt r;
  eta := eta r;
  phi := phi r;
  partType := partType r;
  cut := cut r;
  pidcut := pidcut r;
  tempFitVar := tempFitVar r;
  childrenIds := ids;
  mLambda := mLambda r;
  mAntiLambda := mAntiLambda r
|}.

Definition with_origin (r : FDMCParticle) (v : Z) : FDMCParticle := {|
  partOriginMCTruth := v;
  pdgMCTruth := pdgMCTruth r;
  mc_pt := mc_pt r;
  mc_eta := mc_eta r;
  mc_phi := mc_phi r
|}.

(** A generated proton, primary. *)
Definition unit_mc : FDMCParticle := {|
  partOriginMCTruth :=
    femtodreamMCparticle.ParticleOriginMCTruth_value femtodreamMCparticle.kPrimary;
  pdgMCTruth := 2212;
  mc_pt := F32.one;
  mc_eta := F32.zero;
  mc_phi := F32.zero
|}.

(** The counts [0], [1], ..., [255] of a [uint8_t] column. *)
Definition uint8_values : list Z := map Z.of_nat (seq 0 256).

(** What the crossed-rows ratio of the counts [f] (findable) and [c]
    (crossed) has to be: NaN for 0/0, +inf for c/0, +0 for 0/f, and otherwise
    a positive binary32 value [m * 2^e] at most half a unit in the last place
    away from the quotient [c / f]; 1 when the counts agree. *)
Definition ratio_check (f c : Z) : bool :=
  let q := F32.div (F32.of_Z c) (F32.of_Z f) in
  if f =? 0 then
    if c =? 0 then F32.same q F32.nan else F32.same q F32.pinf
  else if c =? 0 then F32.same q F32.zero
  else
    match q with
    | S754_finite false m e =>
        (e <=? 0) && (2 * Z.abs (Zpos m * f - c * 2 ^ (- e)) <=? f)
        && F32.valid q
        && (if c =? f then F32.same q F32.one else true)
    | _ => false
    end.

(** [x] is finite and within the relative error [eps] of the real [v]. *)
Definition within (eps : R) (x : F32.float) (v : R) : Prop :=
  F32.is_finite x = true /\ (Rabs (F32.to_R x - v) <= eps * Rabs v)%R.

(** A track with [pt = 2], [eta = 1] and [phi] the binary32 value of pi/2. *)
Definition central_track : FDParticle :=
  with_kinematics unit_track F32.two F32.one F32.pi_2.

(** Rows with [eta = 200], [eta = -200] and with [pt = 0], [eta = 100]. *)
Definition forward_track : FDParticle :=
  with_kinematics unit_track F32.one f_200 F32.zero.
Definition backward_track : FDParticle :=
  with_kinematics unit_track F32.one (F32.opp f_200) F32.zero.
Definition stopped_track : FDParticle :=
  with_kinematics unit_track F32.zero f_100 F32.zero.

(** A row with [pt = 1.5], [eta = 0] and [phi = 0.125]. *)
Definition f_3_2 : F32.float := S754_finite false 12582912 (-23).
Definition f_1_8 : F32.float := S754_finite false 8388608 (-26).
Definition inclined_track : FDParticle :=
  with_kinematics unit_track f_3_2 F32.zero f_1_8.

(** A row with the smallest positive [pt], 2^-149, [eta = 0] and [phi] the
    binary32 value of pi/4. *)
Definition f_min : F32.float := S754_finite false 1 (-149).
Definition faint_track : FDParticle :=
  with_kinematics unit_track f_min F32.zero F32.pi_4.

(** ** Rounding of a product *)

(** The exact product of [x] and [y] is 0 or at least the smallest normal
    binary32 value, 2^-126, in magnitude: rounding it does not underflow. *)
Definition no_underflow (x y : F32.float) : Prop :=
  (F32.to_R x * F32.to_R y = 0
   \/ powerRZ 2 (-126) <= Rabs (F32.to_R x * F32.to_R y))%R.

(** The binary32 product [x * y] neither overflows nor underflows. *)
Definition product_in_range (x y : F32.float) : Prop :=
  F32.is_finite (F32.mul x y) = true /\ no_underflow x y.

(** What the shifts of [shr] keep: after shifting the mantissa [M] right by
    the bits that make up [P], the record holds the quotient, its round bit
    tells whether the remainder reaches half of [P], and its sticky bit
    whether the remainder is neither 0 nor that half. *)
Definition shr_inv (M P : Z) (mrs : shr_record) : Prop :=
  0 <= shr_m mrs
  /\ exists rem, M = shr_m mrs * P + rem /\ 0 <= rem < P
       /\ (shr_r mrs = true <-> P <= 2 * rem)
       /\ (shr_s mrs = true <-> rem <> 0 /\ 2 * rem <> P).

(** The second half of [binary_round_aux]: the rounded mantissa is shifted
    once more if rounding carried, and the result overflows to an infinity
    beyond the largest exponent. *)
Definition round_finish (s : bool) (m e : Z) : F32.float :=
  let '(mrs, e') := shr_fexp F32.prec F32.emax m e loc_Exact in
  match shr_m mrs with
  | Z0 => S754_zero s
  | Zpos m' =>
      if e' <=? F32.emax - F32.prec then S754_finite s m' e' else S754_infinity s
  | Zneg _ => S754_nan
  end.
(** ** Column declarations

    [DECLARE_SOA_COLUMN(Name, getter, type)] declares a stored column,
    [DECLARE_SOA_INDEX_COLUMN(Name, getter)] an index into another table,
    which tables refer to as [NameId],
    [DECLARE_SOA_SELF_ARRAY_INDEX_COLUMN(Name, getter)] a list of indices
    into the table that holds it, referred to as [NameIds], and
    [DECLARE_SOA_DYNAMIC_COLUMN(Name, getter, lambda)] a column computed
    from the columns it is bound to. *)

Inductive ctype : Set :=
| c_float
| c_int
| c_bool
| c_uint8
| c_int8
| c_uint32      (* BitMaskType, cutContainerType *)
| c_int64.

Inductive column_kind : Set :=
| Stored (t : ctype)
| IndexColumn
| SelfArrayIndexColumn
| DynamicColumn (params : list ctype) (result : ctype).

Record column : Type := {
  c_namespace : string;
  c_name : string;
  c_getter : string;
  c_kind : column_kind
}.

Definition col (ns name getter : string) (t : ctype) : column :=
  {| c_namespace := ns; c_name := name; c_getter := getter; c_kind := Stored t |}.

Section Columns.

Local Open Scope string_scope.

Definition femtodreamcollision_columns : list column :=
  [col "femtodreamcollision" "MultV0M" "multV0M" c_float;
   col "femtodreamcollision" "MultNtr" "multNtr" c_int;
   col "femtodreamcollision" "Sphericity" "sphericity" c_float;
   col "femtodreamcollision" "MagField" "magField" c_float;
   col "femtodreamcollision" "BitMaskTrackOne" "bitmaskTrackOne" c_uint32;
   col "femtodreamcollision" "BitMaskTrackTwo" "bitmaskTrackTwo" c_uint32;
   col "femtodreamcollision" "BitMaskTrackThree" "bitmaskTrackThree" c_uint32;
   col "femtodreamcollision" "Downsample" "downsample" c_bool].

Definition femtodreamparticle_columns : list column :=
  [{| c_namespace := "femtodreamparticle"; c_name := "FDCollision";
      c_getter := "fdCollision"; c_kind := IndexColumn |};
   col "femtodreamparticle" "Pt" "pt" c_float;
   col "femtodreamparticle" "Eta" "eta" c_float;
   col "femtodreamparticle" "Phi" "phi" c_float;
   col "femtodreamparticle" "PartType" "partType" c_uint8;
   col "femtodreamparticle" "Cut" "cut" c_uint32;
   col "femtodreamparticle" "PIDCut" "pidcut" c_uint32;
   col "femtodreamparticle" "TempFitVar" "tempFitVar" c_float;
   {| c_namespace := "femtodreamparticle"; c_name := "Children";
      c_getter := "children"; c_kind := SelfArrayIndexColumn |};
   col "femtodreamparticle" "MLambda" "mLambda" c_float;
   col "femtodreamparticle" "MAntiLambda" "mAntiLambda" c_float;
   {| c_namespace := "femtodreamparticle"; c_name := "Theta";
      c_getter := "theta"; c_kind := DynamicColumn [c_float] c_float |};
   {| c_namespace := "femtodreamparticle"; c_name := "Px";
      c_getter := "px"; c_kind := DynamicColumn [c_float; c_float] c_float |};
   {| c_namespace := "femtodreamparticle"; c_name := "Py";
      c_getter := "py"; c_kind := DynamicColumn [c_float; c_float] c_float |};
   {| c_namespace := "femtodreamparticle"; c_name := "Pz";
      c_getter := "pz"; c_kind := DynamicColumn [c_float; c_float] c_float |};
   {| c_namespace := "femtodreamparticle"; c_name := "P";
      c_getter := "p"; c_kind := DynamicColumn [c_float; c_float] c_float |};
   col "femtodreamparticle" "Sign" "sign" c_int8;
   col "femtodreamparticle" "TPCNClsFound" "tpcNClsFound" c_uint8;
   col "femtodreamparticle" "TPCNClsCrossedRows" "tpcNClsCrossedRows" c_uint8;
   col "femtodreamparticle" "ITSNCls" "itsNCls" c_uint8;
   col "femtodreamparticle" "ITSNClsInnerBarrel" "itsNClsInnerBarrel" c_uint8;
   {| c_namespace := "femtodreamparticle";
      c_name := "TPCCrossedRowsOverFindableCls";
      c_getter := "tpcCrossedRowsOverFindableCls";
      c_kind := DynamicColumn [c_uint8; c_uint8] c_float |};
   col "femtodreamparticle" "TPCNSigmaEl" "tpcNSigmaEl" c_float;
   col "femtodreamparticle" "TPCNSigmaPi" "tpcNSigmaPi" c_float;
   col "femtodreamparticle" "TPCNSigmaKa" "tpcNSigmaKa" c_float;
   col "femtodreamparticle" "TPCNSigmaPr" "tpcNSigmaPr" c_float;
   col "femtodreamparticle" "TPCNSigmaDe" "tpcNSigmaDe" c_float;
   col "femtodreamparticle" "TOFNSigmaEl" "tofNSigmaEl" c_float;
   col "femtodreamparticle" "TOFNSigmaPi" "tofNSigmaPi" c_float;
   col "femtodreamparticle" "TOFNSigmaKa" "tofNSigmaKa" c_float;
   col "femtodreamparticle" "TOFNSigmaPr" "tofNSigmaPr" c_float;
   col "femtodreamparticle" "TOFNSigmaDe" "tofNSigmaDe" c_float;
   col "femtodreamparticle" "DaughDCA" "daughDCA" c_float;
   col "femtodreamparticle" "TransRadius" "transRadius" c_float;
   col "femtodreamparticle" "DecayVtxX" "decayVtxX" c_float;
   col "femtodreamparticle" "DecayVtxY" "decayVtxY" c_float;
   col "femtodreamparticle" "DecayVtxZ" "decayVtxZ" c_float;
   col "femtodreamparticle" "MKaon" "mKaon" c_float].

Definition fdhf_columns : list column :=
  [{| c_namespace := "fdhf"; c_name := "Collision";
      c_getter := "collision"; c_kind := IndexColumn |};
   col "fdhf" "TrackId" "trackId" c_int;
   col "fdhf" "Charge" "charge" c_int;
   col "fdhf" "Prong0Id" "prong0Id" c_int;
   col "fdhf" "Prong1Id" "prong1Id" c_int;
   col "fdhf" "Prong2Id" "prong2Id" c_int;
   col "fdhf" "Prong0Pt" "prong0Pt" c_float;
   col "fdhf" "Prong1Pt" "prong1Pt" c_float;
   col "fdhf" "Prong2Pt" "prong2Pt" c_float;
   col "fdhf" "Prong0Eta" "prong0Eta" c_float;
   col "fdhf" "Prong1Eta" "prong1Eta" c_float;
   col "fdhf" "Prong2Eta" "prong2Eta" c_float;
   col "fdhf" "Prong0Phi" "prong0Phi" c_float;
   col "fdhf" "Prong1Phi" "prong1Phi" c_float;
   col "fdhf" "Prong2Phi" "prong2Phi" c_float;
   col "fdhf" "CandidateSelFlag" "candidateSelFlag" c_int8;
   col "fdhf" "BDTBkg" "bdtBkg" c_float;
   col "fdhf" "BDTPrompt" "bdtPrompt" c_float;
   col "fdhf" "BDTFD" "bdtFD" c_float;
   col "fdhf" "M" "m" c_float;
   col "fdhf" "Pt" "pt" c_float;
   col "fdhf" "P" "p" c_float;
   col "fdhf" "Eta" "eta" c_float;
   col "fdhf" "Phi" "phi" c_float;
   col "fdhf" "Y" "y" c_float;
   col "fdhf" "FlagMc" "flagMc" c_int8;
   col "fdhf" "OriginMcRec" "originMcRec" c_int8;
   col "fdhf" "OriginMcGen" "originMcGen" c_int8;
   col "fdhf" "IsCandidateSwapped" "isCandidateSwapped" c_int8;
   col "fdhf" "PtAssoc" "ptAssoc" c_float;
   col "fdhf" "Correlation" "correlation" c_float;
   col "fdhf" "KT" "kT" c_float;
   col "fdhf" "MT" "mT" c_float;
   col "fdhf" "Mult" "mult" c_int;
   col "fdhf" "MultPercentile" "multPercentile" c_float;
   col "fdhf" "PartPairSign" "partPairSign" c_int8;
   col "fdhf" "ProcessType" "processType" c_int64].

Definition femtodreamMCparticle_columns : list column :=
  [col "femtodreamMCparticle" "PartOriginMCTruth" "partOriginMCTruth" c_uint8;
   col "femtodreamMCparticle" "PDGMCTruth" "pdgMCTruth" c_int;
   col "femtodreamMCparticle" "MotherPDG" "motherPDG" c_int].

Definition label_columns : list column :=
  [{| c_namespace := "mcfdlabel"; c_name := "FDMCParticle";
      c_getter := "fdMCParticle"; c_kind := IndexColumn |};
   {| c_namespace := "mcfdextlabel"; c_name := "FDExtMCParticle";
      c_getter := "fdExtMCParticle"; c_kind := IndexColumn |}].

Definition hash_columns : list column :=
  [col "hash" "Bin" "bin" c_int].

(** Every column the header declares, in the order of declaration. *)
Definition declared_columns : list column :=
  femtodreamcollision_columns ++ femtodreamparticle_columns ++ fdhf_columns
  ++ femtodreamMCparticle_columns ++ label_columns ++ hash_columns.

(** Columns of other headers that the tables use. *)
Definition external_columns : list string :=
  ["o2::soa::Index<>"; "o2::aod::collision::PosZ"; "track::TPCNClsFindable";
   "track::TPCNClsShared"; "track::TPCInnerParam"; "track::DcaXY";
   "track::DcaZ"; "track::TPCSignal"].

(** The name by which a table declaration refers to a column. *)
Definition reference_name (c : column) : string :=
  c_namespace c ++ "::" ++ c_name c ++
  match c_kind c with
  | IndexColumn => "Id"
  | SelfArrayIndexColumn => "Ids"
  | _ => ""
  end.

End Columns.

(** *** Column references

    A reference is [Name] or, for a dynamic column, [Name<Arg, ..., Arg>]. *)

(** The text before the first [c], and the text after it. *)
Fixpoint split_at (c : ascii) (s : string) : option (string * string) :=
  match s with
  | EmptyString => None
  | String a rest =>
      if Ascii.eqb a c then Some (EmptyString, rest)
      else match split_at c rest with
           | Some (before, after) => Some (String a before, after)
           | None => None
           end
  end.

Fixpoint skip_spaces (s : string) : string :=
  match s with
  | String " " rest => skip_spaces rest
  | _ => s
  end.

(** The arguments of [Arg, ..., Arg>]; [n] bounds their number. *)
Fixpoint split_args (n : nat) (s : string) : list string :=
  match n with
  | O => []
  | S k =>
      match split_at "," s with
      | Some (arg, rest) => arg :: split_args k (skip_spaces rest)
      | None =>
          match split_at ">" s with
          | Some (EmptyString, _) => []
          | Some (arg, _) => [arg]
          | None => []
          end
      end
  end.

(** The head and the arguments of a reference. *)
Definition parse_reference (s : string) : string * list string :=
  match split_at "<" s with
  | Some (head, rest) => (head, split_args (String.length rest) rest)
  | None => (s, [])
  end.

Definition render_reference (head : string) (args : list string) : string :=
  match args with
  | [] => head
  | _ => (head ++ "<" ++ String.concat ", " args ++ ">")%string
  end.

(** The declared column a name refers to. *)
Definition resolve (name : string) : option column :=
  find (fun c => String.eqb (reference_name c) name) declared_columns.

Definition is_external (name : string) : bool :=
  existsb (String.eqb name) external_columns.

Definition is_dynamic (c : column) : bool :=
  match c_kind c with
  | DynamicColumn _ _ => true
  | _ => false
  end.

(** The type of the values a stored column holds; indices are [int32_t]. *)
Definition stored_type (c : column) : option ctype :=
  match c_kind c with
  | Stored t => Some t
  | IndexColumn => Some c_int
  | _ => None
  end.

(** A stored-column reference of a table is well-formed when it is an
    external column or a declared column that is not dynamic; a dynamic
    reference when its head is a declared dynamic column with as many
    parameters as the reference has arguments, each argument is a
    stored-column reference of the same table, and a declared argument has
    the type of the parameter it is bound to. *)
Definition argument_ok (t : table) (param : ctype) (arg : string) : bool :=
  existsb (String.eqb arg) (t_columns t)
  && match resolve arg with
     | Some c =>
         match stored_type c with
         | Some ty =>
             match ty, param with
             | c_float, c_float | c_int, c_int | c_bool, c_bool
             | c_uint8, c_uint8 | c_int8, c_int8 | c_uint32, c_uint32
             | c_int64, c_int64 => true
             | _, _ => false
             end
         | None => false
         end
     | None => is_external arg
     end.

Fixpoint arguments_ok (t : table) (params : list ctype) (args : list string) : bool :=
  match params, args with
  | [], [] => true
  | p :: ps, a :: rest => argument_ok t p a && arguments_ok t ps rest
  | _, _ => false
  end.

Definition reference_ok (t : table) (ref : string) : bool :=
  if is_external ref then true
  else
    let '(head, args) := parse_reference ref in
    match resolve head with
    | Some c =>
        match c_kind c with
        | DynamicColumn params _ => arguments_ok t params args
        | _ => match args with [] => true | _ => false end
        end
    | None => false
    end.

(** The declared columns a table uses, dynamic columns included. *)
Definition columns_of (t : table) : list column :=
  flat_map (fun ref => match resolve (fst (parse_reference ref)) with
                       | Some c => [c]
                       | None => []
                       end) (t_columns t).

(** A declared column is used when some table refers to it. *)
Definition is_used (c : column) : bool :=
  existsb (fun t => existsb (fun ref =>
             String.eqb (fst (parse_reference ref)) (reference_name c))
             (t_columns t)) declared_tables.

(** ** Checks over the 8-bit counts *)

(** The counts [1], ..., [255]. *)
Definition positive_counts : list Z := map Z.of_nat (seq 1 255).

(** A row of counts. *)
Definition counts (f c : Z) : FDExtParticle_counts :=
  {| tpcNClsFindable := f; tpcNClsCrossedRows := c |}.

(** The crossed-rows ratio of the counts [f] and [c]; it reads no libm
    function. *)
Definition ratio (f c : Z) : F32.float :=
  femtodreamparticle.TPCCrossedRowsOverFindableCls (binary32 RefLibm.libm) f c.

(** A table with one entry for each path of [n] binary choices; a path is
    a [positive] whose bits below the leading one are read from the lowest
    up. *)
Inductive tree (A : Type) : Type :=
| Leaf (a : A)
| Node (l r : tree A).

Arguments Leaf {A} a.
Arguments Node {A} l r.

Fixpoint tabulate {A : Type} (n : nat) (g : positive -> A) : tree A :=
  match n with
  | O => Leaf (g xH)
  | S n' => Node (tabulate n' (fun p => g (xO p))) (tabulate n' (fun p => g (xI p)))
  end.

Fixpoint get {A : Type} (d : A) (t : tree A) (p : positive) : A :=
  match t, p with
  | Leaf a, _ => a
  | Node l _, xO q => get d l q
  | Node _ r, xI q => get d r q
  | Node _ _, xH => d
  end.

(** The path of an 8-bit count. *)
Definition path (z : Z) : positive := Z.to_pos (z + 256).

(** The ratios of all pairs of 8-bit counts, each computed once. *)
Definition ratios : tree (tree F32.float) :=
  tabulate 8 (fun pf => tabulate 8 (fun pc => ratio (Zpos pf - 256) (Zpos pc - 256))).

Definition lookup (t : tree (tree F32.float)) (f c : Z) : F32.float :=
  get F32.nan (get (Leaf F32.nan) t (path f)) (path c).

(** With a findable cluster, the ratio compares with 1 as the crossed rows
    compare with the findable clusters, and lies between 0 and 255. *)
Definition ratio_order_check (t : tree (tree F32.float)) (f c : Z) : bool :=
  let q := lookup t f c in
  if f =? 0 then true
  else Bool.eqb (F32.ltb q F32.one) (c <? f)
       && Bool.eqb (F32.eqb q F32.one) (c =? f)
       && Bool.eqb (F32.ltb F32.one q) (f <? c)
       && F32.leb F32.zero q && F32.leb q (F32.of_Z 255).

(** One more crossed row gives a larger ratio, one more findable cluster a
    smaller one. *)
Definition ratio_step_check (t : tree (tree F32.float)) (f c : Z) : bool :=
  F32.ltb (lookup t f (c - 1)) (lookup t f c)
  && ((f =? 255) || F32.ltb (lookup t (f + 1) c) (lookup t f c)).

(** The multiples [2 f, 2 c], [3 f, 3 c], ... of the counts that still are
    8-bit counts have the ratio of [f] and [c]. *)
Definition ratio_scale_check (t : tree (tree F32.float)) (f c : Z) : bool :=
  forallb (fun k => F32.same (lookup t (Z.of_nat k * f) (Z.of_nat k * c)) (lookup t f c))
          (seq 2 (Z.to_nat (255 / Z.max f c) - 1)).

Definition ratio_checks (t : tree (tree F32.float)) : bool :=
  forallb (fun f => forallb (ratio_order_check t f) uint8_values) uint8_values
  && forallb (fun f => forallb (ratio_step_check t f) positive_counts) positive_counts
  && forallb (fun f => forallb (ratio_scale_check t f) positive_counts) positive_counts.

(** The conversion of [z] to [float] is [z] itself. *)
Definition cast_check (z : Z) : bool :=
  match F32.of_Z z with
  | S754_zero false => z =? 0
  | S754_finite false m e => (e <=? 0) && (Zpos m =? z * 2 ^ (- e)) && (0 <? z)
  | _ => false
  end.

(** ** Kinds of the remaining enumerations *)

Definition is_track_type (t : femtodreamparticle.TrackType) : bool :=
  femtodreamparticle.TrackType_value t
  <? femtodreamparticle.TrackType_value femtodreamparticle.kNTrackTypes.

Definition is_mc_type (t : femtodreamMCparticle.MCType) : bool :=
  femtodreamMCparticle.MCType_value t
  <? femtodreamMCparticle.MCType_value femtodreamMCparticle.kNMCTypes.

Definition is_binning (b : femtodreamcollision.CollisionBinning) : bool :=
  femtodreamcollision.CollisionBinning_value b
  <? femtodreamcollision.CollisionBinning_value
       femtodreamcollision.kNCollisionBinning.

(** The references of a table that bind a dynamic column, parsed. *)
Definition dynamic_references (t : table) : list (string * (string * list string)) :=
  flat_map (fun ref =>
              match parse_reference ref with
              | (_, []) => []
              | parsed => [(t_name t, parsed)]
              end) (t_columns t).

(** ** Products with a vanishing factor *)

Definition sign_bit (x : F32.float) : bool :=
  match x with
  | S754_zero s | S754_infinity s | S754_finite s _ _ => s
  | S754_nan => false
  end.

(** What IEEE 754 prescribes for the product of a zero of sign [s] and [y]:
    a zero with the sign of the product when [y] is finite, NaN when [y] is
    infinite or NaN. *)
Definition zero_times (s : bool) (y : F32.float) : F32.float :=
  if F32.is_finite y then S754_zero (xorb s (sign_bit y)) else F32.nan.

(** ** Row aliases

    [using Name = Table::iterator]: the name of a row of a table. *)
Definition row_aliases : list (string * table) :=
  [("FDCollision", FDCollisions);
   ("FDParticle", FDParticles);
   ("FDFullParticle", FDExtParticles);
   ("FDMCParticle", FDMCParticles);
   ("FDExtMCParticle", FDExtMCParticles);
   ("Hash", Hashes)]%string.

(** The table whose rows are called [name]. *)
Definition table_of_row (name : string) : option table :=
  match find (fun a => String.eqb (fst a) name) row_aliases with
  | Some a => Some (snd a)
  | None => None
  end.

Definition is_index (c : column) : bool :=
  match c_kind c with
  | IndexColumn => true
  | _ => false
  end.

(** The tables that hold a column. *)
Definition tables_with (c : column) : list table :=
  filter (fun t => existsb (fun c' => String.eqb (reference_name c') (reference_name c))
                           (columns_of t)) declared_tables.

Definition is_self_array_index (c : column) : bool :=
  match c_kind c with
  | SelfArrayIndexColumn => true
  | _ => false
  end.

(** * Properties *)

(** ** Enumerations and their name tables *)

Import femtodreamparticle femtodreamMCparticle.

(** The value of an enumerator is its position in the declaration. *)
Lemma ParticleType_value_position (t : ParticleType) :
  nth_error ParticleType_enumerators (Z.to_nat (ParticleType_value t)) = Some t.
Proof. destruct t; reflexivity. Qed.

Lemma ParticleOriginMCTruth_value_position (o : ParticleOriginMCTruth) :
  nth_error ParticleOriginMCTruth_enumerators
    (Z.to_nat (ParticleOriginMCTruth_value o)) = Some o.
Proof. destruct o; reflexivity. Qed.

(** Case analysis on an integer up to 15; larger and negative values are
    left to [lia]. *)
Ltac small_value v :=
  let q := fresh "q" in
  let H := fresh "H" in
  destruct v as [|q|q]; [ | do 4 (try destruct q as [q|q|]) | ];
  cbn;
  (split;
   [ intros H; try lia; exfalso; apply H; reflexivity
   | intros H; try lia; discriminate ]).

(** A stored value stands for a particle kind exactly when it is below
    [kNParticleTypes], and likewise for the origins. *)
Lemma ParticleType_of_Z_range (v : Z) :
  ParticleType_of_Z v <> None <-> 0 <= v < ParticleType_value kNParticleTypes.
Proof. small_value v. Qed.

Lemma ParticleOriginMCTruth_of_Z_range (v : Z) :
  ParticleOriginMCTruth_of_Z v <> None
  <-> 0 <= v < ParticleOriginMCTruth_value kNOriginMCTruthTypes.
Proof. small_value v. Qed.

(** C10.  [TempFitVarName] has [kNParticleTypes - 1 = 5] entries for six
    particle kinds: subscripting it with [kCharmHadron] is out of bounds,
    while every other kind has an entry. *)
Theorem TempFitVarName_lacks_kCharmHadron :
  Z.of_nat (List.length TempFitVarName) = ParticleType_value kNParticleTypes - 1
  /\ List.length TempFitVarName = 5%nat
  /\ List.length (filter is_particle_kind ParticleType_enumerators) = 6%nat
  /\ ParticleType_value kCharmHadron = 5
  /\ is_particle_kind kCharmHadron = true
  /\ subscript TempFitVarName (ParticleType_value kCharmHadron) = None
  /\ (forall t, is_particle_kind t = true -> t <> kCharmHadron ->
        exists s, subscript TempFitVarName (ParticleType_value t) = Some s)
  /\ (forall t, is_particle_kind t = true ->
        exists s, subscript ParticleTypeName (ParticleType_value t) = Some s).
Proof.
  repeat (split; [reflexivity | ]).
  split; intros t Hk; [intros Hne | ];
    destruct t; try discriminate Hk; try contradiction;
    eexists; reflexivity.
Qed.

(** C9.  [ParticleOriginMCTruthName] has nine slots and seven initialisers.
    From index 5 on the names are shifted against the enumeration: slot 5
    ([kWrongCollision]) holds the name of the Lambda daughters, slot 6
    ([kSecondaryDaughterLambda]) that of the Sigma-plus daughters, slots 7
    and 8 are empty; no origin from 5 on finds its own name, every origin
    below 5 does. *)
Theorem ParticleOriginMCTruthName_misaligned :
  List.length ParticleOriginMCTruthName = 9%nat
  /\ List.length ParticleOriginMCTruthName_initialisers = 7%nat
  /\ subscript ParticleOriginMCTruthName (ParticleOriginMCTruth_value kWrongCollision)
     = Some "_SecondaryDaughterLambda"%string
  /\ subscript ParticleOriginMCTruthName
       (ParticleOriginMCTruth_value kSecondaryDaughterLambda)
     = Some "_SecondaryDaughterSigmaPlus"%string
  /\ subscript ParticleOriginMCTruthName
       (ParticleOriginMCTruth_value kSecondaryDaughterSigmaplus)
     = Some EmptyString
  /\ subscript ParticleOriginMCTruthName (ParticleOriginMCTruth_value kElse)
     = Some EmptyString
  /\ (forall o, is_origin_kind o = true -> 5 <= ParticleOriginMCTruth_value o ->
        subscript ParticleOriginMCTruthName (ParticleOriginMCTruth_value o)
        <> Some (own_name o))
  /\ (forall o, ParticleOriginMCTruth_value o < 5 ->
        subscript ParticleOriginMCTruthName (ParticleOriginMCTruth_value o)
        = Some (own_name o)).
Proof.
  repeat (split; [reflexivity | ]).
  split.
  - intros o Hk Hge; destruct o; cbn in Hge; try lia;
      try discriminate Hk; cbn; discriminate.
  - intros o Hlt; destruct o; cbn in Hlt; try lia; reflexivity.
Qed.

(** ** Table tags *)

(** The claim of C7 fails on the first table: the origin tag has three
    characters and the description tag eleven. *)
Lemma FDCollisions_tags_outside_4_8 :
  In FDCollisions declared_tables
  /\ tag_pair FDCollisions = ("AOD", "FDCOLLISION")%string
  /\ tag_length_ok 4 8 (t_origin FDCollisions) = false
  /\ tag_length_ok 4 8 (t_description FDCollisions) = false.
Proof. repeat split; cbn; auto. Qed.

(** C7, amended.  Every declared table has the origin tag ["AOD"], of three
    characters, and a description tag of four to fifteen characters; no two
    tables share a description tag. *)
Theorem table_tags :
  Forall (fun t => t_origin t = "AOD"%string
                   /\ String.length (t_origin t) = 3%nat
                   /\ tag_length_ok 4 15 (t_description t) = true)
         declared_tables
  /\ distinct (map t_description declared_tables) = true
  /\ NoDup (map tag_pair declared_tables)
  /\ List.length declared_tables = 15%nat.
Proof.
  split; [repeat constructor | ].
  split; [reflexivity | ].
  split; [ | reflexivity].
  cbn.
  repeat (constructor; [cbn; intuition discriminate | ]).
  constructor.
Qed.

(** ** Stored enumeration values *)

(** The claim of C5 fails: a row whose [partType] is 6, and a generated
    particle whose [partOriginMCTruth] is 9, hold values of the columns'
    type that stand for no declared kind. *)
Lemma out_of_range_kinds_are_storable :
  FDParticle_typed (with_partType unit_track 6) = true
  /\ ParticleType_of_Z (partType (with_partType unit_track 6)) = None
  /\ FDMCParticle_typed (with_origin unit_mc 9) = true
  /\ ParticleOriginMCTruth_of_Z (partOriginMCTruth (with_origin unit_mc 9)) = None.
Proof. repeat split. Qed.

(** C5, amended.  [partType] and [partOriginMCTruth] are stored as unsigned
    8-bit values.  The six particle kinds are the values 0..5 and the nine
    origins the values 0..8; each of them is storable, and so is every other
    value up to 255: the columns are not restricted to the enumerations. *)
Theorem enumeration_columns_are_uint8 :
  (forall r, FDParticle_typed r = true -> 0 <= partType r <= 255)
  /\ (forall r, FDMCParticle_typed r = true -> 0 <= partOriginMCTruth r <= 255)
  /\ (forall v, ParticleType_of_Z v <> None <-> 0 <= v <= 5)
  /\ (forall v, ParticleOriginMCTruth_of_Z v <> None <-> 0 <= v <= 8)
  /\ (forall t, is_particle_kind t = true ->
        ParticleType_of_Z (ParticleType_value t) = Some t)
  /\ (forall o, is_origin_kind o = true ->
        ParticleOriginMCTruth_of_Z (ParticleOriginMCTruth_value o) = Some o)
  /\ (forall r v, FDParticle_typed r = true -> 0 <= v <= 255 ->
        FDParticle_typed (with_partType r v) = true
        /\ partType (with_partType r v) = v)
  /\ (forall r v, FDMCParticle_typed r = true -> 0 <= v <= 255 ->
        FDMCParticle_typed (with_origin r v) = true
        /\ partOriginMCTruth (with_origin r v) = v).
Proof.
  split.
  { intros r H; unfold FDParticle_typed, is_uint8 in H.
    rewrite !andb_true_iff, !Z.leb_le in H; tauto. }
  split.
  { intros r H; unfold FDMCParticle_typed, is_uint8 in H.
    rewrite !andb_true_iff, !Z.leb_le in H; tauto. }
  split.
  { intros v; rewrite ParticleType_of_Z_range; cbn; lia. }
  split.
  { intros v; rewrite ParticleOriginMCTruth_of_Z_range; cbn; lia. }
  split.
  { intros t H; destruct t; try discriminate H; reflexivity. }
  split.
  { intros o H; destruct o; try discriminate H; reflexivity. }
  split.
  - intros r v H Hv; split; [ | reflexivity].
    destruct r; unfold FDParticle_typed, with_partType, is_uint8 in *.
    cbn [fdCollisionId pt eta phi partType cut pidcut tempFitVar childrenIds
         mLambda mAntiLambda] in *.
    rewrite !andb_true_iff, !Z.leb_le in *; tauto.
  - intros r v H Hv; split; [ | reflexivity].
    destruct r; unfold FDMCParticle_typed, with_origin, is_uint8 in *.
    cbn [partOriginMCTruth pdgMCTruth mc_pt mc_eta mc_phi] in *.
    rewrite !andb_true_iff, !Z.leb_le in *; tauto.
Qed.

(** ** Child indices *)

(** The claim of C6 fails: a table whose only row lists index 0, its own,
    among its children holds values of the columns' types only. *)
Lemma self_reference_is_storable :
  let t := [with_children unit_track [0]] in
  FDParticles_typed t = true /\ self_child t 0 = true.
Proof. split; reflexivity. Qed.

Lemma FDParticle_typed_with_children (r : FDParticle) (ids : list Z) :
  FDParticle_typed r = true -> forallb is_int32 ids = true ->
  FDParticle_typed (with_children r ids) = true.
Proof.
  intros H Hids; destruct r; unfold FDParticle_typed, with_children in *.
  cbn [fdCollisionId pt eta phi partType cut pidcut tempFitVar childrenIds
       mLambda mAntiLambda] in *.
  rewrite !andb_true_iff in *; tauto.
Qed.

(** C6, amended.  The child-index list of a row is a list of 32-bit row
    indices into the same table and is stored as given: appending to a table
    a row with any such list yields a table of well-typed rows, also when the
    list contains the index of the new row itself.  Nothing is verified. *)
Theorem children_are_stored_unchecked
    (t : list FDParticle) (r : FDParticle) (ids : list Z)
    (Ht : FDParticles_typed t = true)
    (Hr : FDParticle_typed r = true)
    (Hids : forallb is_int32 ids = true) :
  let i := List.length t in
  let t' := t ++ [with_children r ids] in
  FDParticles_typed t' = true
  /\ (exists r', nth_error t' i = Some r' /\ childrenIds r' = ids)
  /\ (In (Z.of_nat i) ids -> self_child t' i = true).
Proof.
  intros i t'; subst i t'.
  assert (Hnth : nth_error (t ++ [with_children r ids]) (List.length t)
                 = Some (with_children r ids)).
  { rewrite nth_error_app2 by lia. now rewrite Nat.sub_diag. }
  split; [ | split].
  - unfold FDParticles_typed in *. rewrite forallb_app, Ht. cbn.
    now rewrite FDParticle_typed_with_children.
  - eexists; split; [exact Hnth | reflexivity].
  - intros Hin. unfold self_child. rewrite Hnth. cbn.
    apply existsb_exists. exists (Z.of_nat (List.length t)).
    split; [assumption | apply Z.eqb_refl].
Qed.

Lemma children_are_stored_unchecked_witness :
  let t := @nil FDParticle in
  let ids := [0] in
  FDParticles_typed (t ++ [with_children unit_track ids]) = true
  /\ (exists r', nth_error (t ++ [with_children unit_track ids]) 0 = Some r'
                 /\ childrenIds r' = ids)
  /\ (In 0 ids -> self_child (t ++ [with_children unit_track ids]) 0 = true).
Proof.
  exact (children_are_stored_unchecked [] unit_track [0]
           eq_refl eq_refl eq_refl).
Defined.

(** ** The crossed-rows ratio *)

Lemma same_eq (x y : F32.float) : F32.same x y = true -> x = y.
Proof.
  destruct x as [s|s| |s m e], y as [t|t| |t n f]; cbn; try discriminate;
    try reflexivity.
  - intros H; apply eqb_prop in H; now subst.
  - intros H; apply eqb_prop in H; now subst.
  - rewrite !andb_true_iff. intros [[Hs Hm] He].
    apply eqb_prop in Hs; apply Pos.eqb_eq in Hm; apply Z.eqb_eq in He.
    now subst.
Qed.

Lemma uint8_values_spec (z : Z) : is_uint8 z = true -> In z uint8_values.
Proof.
  unfold is_uint8, uint8_values. rewrite andb_true_iff, !Z.leb_le.
  intros [H0 H1]. apply in_map_iff. exists (Z.to_nat z).
  split; [lia | apply in_seq; lia].
Qed.

Lemma ratio_check_all :
  forallb (fun f => forallb (ratio_check f) uint8_values) uint8_values = true.
Proof. vm_compute. reflexivity. Qed.

Lemma ratio_check_uint8 (f c : Z) :
  is_uint8 f = true -> is_uint8 c = true -> ratio_check f c = true.
Proof.
  intros Hf Hc.
  pose proof ratio_check_all as H.
  rewrite forallb_forall in H.
  specialize (H f (uint8_values_spec f Hf)).
  rewrite forallb_forall in H.
  exact (H c (uint8_values_spec c Hc)).
Qed.

(** A row with no findable cluster and no crossed row: the division is
    0.0f / 0.0f and the ratio is NaN, the case of a vanishing denominator. *)
Lemma ratio_of_zero_counts_is_nan :
  let r := {| tpcNClsFindable := 0; tpcNClsCrossedRows := 0 |} in
  FDExtParticle_counts_typed r = true
  /\ tpcNClsCrossedRows r = tpcNClsFindable r
  /\ tpcCrossedRowsOverFindableCls RefLibm.libm r = F32.nan
  /\ F32.eqb (tpcCrossedRowsOverFindableCls RefLibm.libm r) F32.one = false.
Proof. repeat split. Qed.

(** C4.  The crossed-rows ratio is the binary32 quotient of the two
    stored 8-bit counts converted to [float], crossed rows over findable
    clusters, whatever the libm.  With a findable cluster the quotient is
    correctly rounded, and it is exactly 1 when the counts agree.  Without a
    findable cluster it is +inf when there are crossed rows and NaN when
    there are none. *)
Theorem crossed_rows_ratio (m : Libm) (r : FDExtParticle_counts)
    (Hr : FDExtParticle_counts_typed r = true) :
  let f := tpcNClsFindable r in
  let c := tpcNClsCrossedRows r in
  let q := tpcCrossedRowsOverFindableCls m r in
  q = F32.div (F32.of_Z c) (F32.of_Z f)
  /\ (c = f -> f <> 0 -> q = F32.one)
  /\ (f = 0 -> c <> 0 -> q = F32.pinf)
  /\ (f = 0 -> c = 0 -> q = F32.nan)
  /\ (f <> 0 -> c = 0 -> q = F32.zero)
  /\ (f <> 0 -> c <> 0 ->
        exists mq eq, q = S754_finite false mq eq /\ F32.valid q = true
          /\ eq <= 0 /\ 2 * Z.abs (Zpos mq * f - c * 2 ^ (- eq)) <= f).
Proof.
  intros f c q.
  unfold FDExtParticle_counts_typed in Hr. apply andb_prop in Hr.
  destruct Hr as [Hf Hc].
  pose proof (ratio_check_uint8 f c Hf Hc) as H.
  unfold ratio_check in H.
  change (F32.div (F32.of_Z c) (F32.of_Z f)) with q in H.
  split; [reflexivity | ].
  destruct (Z.eqb_spec f 0) as [Hf0 | Hf0].
  - destruct (Z.eqb_spec c 0) as [Hc0 | Hc0]; apply same_eq in H;
      repeat split; intros; try congruence; try lia; contradiction.
  - destruct (Z.eqb_spec c 0) as [Hc0 | Hc0].
    + apply same_eq in H; repeat split; intros; try congruence; try lia;
        contradiction.
    + destruct q as [s|s| |s mq eq]; try discriminate H.
      destruct s; try discriminate H.
      rewrite !andb_true_iff, !Z.leb_le in H.
      destruct H as [[[He Hn] Hv] H1].
      repeat split; intros; try congruence; try lia; try contradiction.
      * destruct (Z.eqb_spec c f); [now apply same_eq in H1 | contradiction].
      * exists mq, eq. repeat split; assumption.
Qed.

Lemma crossed_rows_ratio_witness :
  let r := {| tpcNClsFindable := 159; tpcNClsCrossedRows := 159 |} in
  let f := tpcNClsFindable r in
  let c := tpcNClsCrossedRows r in
  let q := tpcCrossedRowsOverFindableCls RefLibm.libm r in
  q = F32.div (F32.of_Z c) (F32.of_Z f)
  /\ (c = f -> f <> 0 -> q = F32.one)
  /\ (f = 0 -> c <> 0 -> q = F32.pinf)
  /\ (f = 0 -> c = 0 -> q = F32.nan)
  /\ (f <> 0 -> c = 0 -> q = F32.zero)
  /\ (f <> 0 -> c <> 0 ->
        exists mq eq, q = S754_finite false mq eq /\ F32.valid q = true
          /\ eq <= 0 /\ 2 * Z.abs (Zpos mq * f - c * 2 ^ (- eq)) <= f).
Proof.
  exact (crossed_rows_ratio RefLibm.libm
           {| tpcNClsFindable := 159; tpcNClsCrossedRows := 159 |} eq_refl).
Defined.

(** ** Dynamic columns of the particle table *)

(** C1.  Whatever the libm, the derived momentum components of a row are
    the binary32 products [pt * sin(phi)], [pt * cos(phi)], [pt * sinh(eta)]
    and [pt * cosh(eta)] of the stored columns, and rows that agree on
    [pt], [eta] and [phi] agree on all four. *)
Theorem momentum_components (m : Libm) (r : FDParticle) :
  px m r = F32.mul (pt r) (m_sin m (phi r))
  /\ py m r = F32.mul (pt r) (m_cos m (phi r))
  /\ pz m r = F32.mul (pt r) (m_sinh m (eta r))
  /\ p m r = F32.mul (pt r) (m_cosh m (eta r))
  /\ (forall r', pt r' = pt r -> eta r' = eta r -> phi r' = phi r ->
        px m r' = px m r /\ py m r' = py m r
        /\ pz m r' = pz m r /\ p m r' = p m r)
  /\ (forall a b : R,
        Px exact a b = (a * sin b)%R /\ Py exact a b = (a * cos b)%R
        /\ Pz exact a b = (a * sinh b)%R /\ P exact a b = (a * cosh b)%R).
Proof.
  repeat (split; [reflexivity | ]).
  split.
  - intros r' Hpt Heta Hphi. unfold px, py, pz, p.
    rewrite Hpt, Heta, Hphi. repeat split.
  - intros a b. repeat split.
Qed.

(** ** Exact arithmetic *)

Lemma exact_Theta_range (x : R) : (0 < Theta exact x < PI)%R.
Proof.
  unfold Theta; cbn.
  pose proof (atan_bound (exp (- x))) as [_ Hhi].
  pose proof (atan_increasing 0 (exp (- x)) (exp_pos _)) as Hlo.
  rewrite atan_0 in Hlo. lra.
Qed.

Lemma exact_Theta_0 : Theta exact 0%R = (PI / 2)%R.
Proof.
  unfold Theta; cbn. rewrite Ropp_0, exp_0, atan_1. lra.
Qed.

Lemma cosh2_minus_sinh2 (x : R) : (cosh x * cosh x - sinh x * sinh x = 1)%R.
Proof.
  unfold cosh, sinh.
  assert (H : (exp x * exp (- x) = 1)%R).
  { rewrite <- exp_plus, Rplus_opp_r. apply exp_0. }
  nra.
Qed.

Lemma exact_pythagoras (pt eta phi : R) :
  (Px exact pt phi * Px exact pt phi + Py exact pt phi * Py exact pt phi
   + Pz exact pt eta * Pz exact pt eta
   = P exact pt eta * P exact pt eta)%R.
Proof.
  unfold Px, Py, Pz, P; cbn.
  pose proof (sin2_cos2 phi) as Hsc. unfold Rsqr in Hsc.
  pose proof (cosh2_minus_sinh2 eta) as Hch.
  nra.
Qed.

(** The binary32 constants. *)
Lemma F32_constants :
  F32.one = S754_finite false 8388608 (-23)
  /\ F32.two = S754_finite false 8388608 (-22)
  /\ F32.mul F32.two F32.pi_4 = F32.pi_2
  /\ F32.mul F32.two F32.pi_2 = F32.pi
  /\ F32.valid F32.pi_4 && F32.valid F32.pi_2 && F32.valid F32.pi = true.
Proof. repeat split. Qed.

Lemma to_R_one : F32.to_R F32.one = 1%R.
Proof.
  change F32.one with (S754_finite false 8388608 (-23)).
  cbn [F32.to_R powerRZ].
  change (Pos.to_nat 23) with 23%nat. cbn [pow]. lra.
Qed.

(** Seven terms of the series of Machin's formula for pi/4. *)
Lemma PI_bounds : (314159265 / 100000000 < PI < 31415927 / 10000000)%R.
Proof.
  pose proof (PI_2_3_7_ineq 3) as [Hlo Hhi].
  unfold PI_2_3_7_tg, tg_alt, Ratan_seq in Hlo, Hhi.
  cbn [sum_f_R0 Nat.mul Nat.add pow INR] in Hlo, Hhi.
  split; lra.
Qed.

(** [F32.pi_2] is less than half a unit in the last place away from pi/2,
    and likewise [F32.pi_4] and [F32.pi]: they are the binary32 values
    nearest to pi/4, pi/2 and pi.  The binary32 value of pi exceeds pi. *)
Lemma pi_constants_nearest :
  (Rabs (F32.to_R F32.pi_4 - PI / 4) < powerRZ 2 (-25))%R
  /\ (Rabs (F32.to_R F32.pi_2 - PI / 2) < powerRZ 2 (-24))%R
  /\ (Rabs (F32.to_R F32.pi - PI) < powerRZ 2 (-23))%R
  /\ (PI < F32.to_R F32.pi)%R.
Proof.
  pose proof PI_bounds as [Hlo Hhi].
  unfold F32.pi_4, F32.pi_2, F32.pi. cbn [F32.to_R powerRZ].
  change (Pos.to_nat 22) with 22%nat. change (Pos.to_nat 23) with 23%nat.
  change (Pos.to_nat 24) with 24%nat. change (Pos.to_nat 25) with 25%nat.
  cbn [pow].
  repeat split; try apply Rabs_def1; lra.
Qed.

(** The reference libm at a few arguments: the values are those of the
    correctly rounded functions. *)
Lemma RefLibm_samples :
  RefLibm.exp (F32.of_Z 1) = S754_finite false 11401300 (-22)
  /\ RefLibm.exp (F32.opp (F32.of_Z 1)) = S754_finite false 12343986 (-25)
  /\ RefLibm.exp (F32.of_Z 88) = S754_finite false 16286391 103
  /\ RefLibm.exp (F32.opp (F32.of_Z 100)) = S754_finite false 27 (-149)
  /\ RefLibm.sin (F32.of_Z 1) = S754_finite false 14117540 (-24)
  /\ RefLibm.sin (F32.of_Z 100) = S754_finite true 8495406 (-24)
  /\ RefLibm.cos (F32.of_Z 1) = S754_finite false 9064768 (-24)
  /\ RefLibm.cos F32.pi = F32.opp F32.one
  /\ RefLibm.sinh (F32.of_Z 1) = S754_finite false 9858302 (-23)
  /\ RefLibm.cosh (F32.of_Z 1) = S754_finite false 12944299 (-23)
  /\ RefLibm.cosh (F32.of_Z 10) = S754_finite false 11277551 (-10)
  /\ RefLibm.atan (F32.of_Z 1) = F32.pi_4
  /\ RefLibm.atan (F32.opp (F32.of_Z 3)) = S754_finite true 10477755 (-23)
  /\ RefLibm.atan (F32.of_Z 10000000000) = F32.pi_2.
Proof. vm_compute. repeat split. Qed.

(** The track with [pt = 2], [eta = 1], [phi = pi/2]: [px = 2],
    [py = -8.742278e-8], [pz = 2.3504024], [p = 3.0861614] and
    [theta = 0.7050269]. *)
Lemma central_track_kinematics :
  px RefLibm.libm central_track = F32.two
  /\ py RefLibm.libm central_track = S754_finite true 12303662 (-47)
  /\ pz RefLibm.libm central_track = S754_finite false 9858302 (-22)
  /\ p RefLibm.libm central_track = S754_finite false 12944299 (-22)
  /\ theta RefLibm.libm central_track = S754_finite false 11828388 (-24).
Proof. vm_compute. repeat split. Qed.

(** C8.  For a row with [pt = 1], [eta = 0] and [phi = 0], and a libm that
    returns [sin 0 = 0], [cos 0 = 1], [sinh 0 = 0], [cosh 0 = 1],
    [exp (-0) = 1] and the binary32 value of pi/4 for [atan 1], the accessors
    return [px = 0], [py = 1], [pz = 0], [p = 1] and the binary32 value of
    pi/2 for the polar angle, the binary32 value nearest to pi/2; over the
    reals the same expressions give 0, 1, 0, 1 and pi/2. *)
Theorem unit_track_kinematics (m : Libm) (r : FDParticle)
    (Hsin : m_sin m F32.zero = F32.zero)
    (Hcos : m_cos m F32.zero = F32.one)
    (Hsinh : m_sinh m F32.zero = F32.zero)
    (Hcosh : m_cosh m F32.zero = F32.one)
    (Hexp : m_exp m (F32.opp F32.zero) = F32.one)
    (Hatan : m_atan m F32.one = F32.pi_4)
    (Hpt : pt r = F32.one) (Heta : eta r = F32.zero) (Hphi : phi r = F32.zero) :
  px m r = F32.zero /\ py m r = F32.one /\ pz m r = F32.zero
  /\ p m r = F32.one /\ theta m r = F32.pi_2
  /\ (Rabs (F32.to_R (theta m r) - PI / 2) < powerRZ 2 (-24))%R
  /\ Px exact 1%R 0%R = 0%R /\ Py exact 1%R 0%R = 1%R
  /\ Pz exact 1%R 0%R = 0%R /\ P exact 1%R 0%R = 1%R
  /\ Theta exact 0%R = (PI / 2)%R.
Proof.
  assert (Ht : theta m r = F32.pi_2).
  { unfold theta, Theta. rewrite Heta.
    cbn [binary32 a_mul a_atan a_exp a_opp a_lit num].
    rewrite Hexp, Hatan. reflexivity. }
  unfold px, py, pz, p, Px, Py, Pz, P.
  rewrite Hpt, Heta, Hphi.
  cbn [binary32 exact a_mul a_sin a_cos a_sinh a_cosh num].
  rewrite Hsin, Hcos, Hsinh, Hcosh.
  repeat (split; [reflexivity | ]).
  split; [exact Ht | ].
  split; [rewrite Ht; apply pi_constants_nearest | ].
  rewrite sin_0, cos_0, sinh_0, cosh_0.
  repeat (split; [lra | ]).
  apply exact_Theta_0.
Qed.

Lemma unit_track_kinematics_witness :
  px RefLibm.libm unit_track = F32.zero
  /\ py RefLibm.libm unit_track = F32.one
  /\ pz RefLibm.libm unit_track = F32.zero
  /\ p RefLibm.libm unit_track = F32.one
  /\ theta RefLibm.libm unit_track = F32.pi_2
  /\ (Rabs (F32.to_R (theta RefLibm.libm unit_track) - PI / 2)
      < powerRZ 2 (-24))%R
  /\ Px exact 1%R 0%R = 0%R /\ Py exact 1%R 0%R = 1%R
  /\ Pz exact 1%R 0%R = 0%R /\ P exact 1%R 0%R = 1%R
  /\ Theta exact 0%R = (PI / 2)%R.
Proof.
  apply (unit_track_kinematics RefLibm.libm unit_track);
    vm_compute; reflexivity.
Defined.

(** ** The polar angle *)

(** Doubling a binary32 value is exact: a normal value keeps its mantissa
    and moves to the next exponent, a subnormal one doubles its mantissa. *)
Lemma mul_two_normal (m : positive) (e : Z) :
  digits2_pos m = 24%positive -> -149 <= e <= 103 ->
  F32.mul F32.two (S754_finite false m e) = S754_finite false m (e + 1).
Proof.
  intros Hd He.
  change F32.two with (S754_finite false 8388608 (-22)).
  unfold F32.mul, SFmul. cbn [xorb].
  unfold binary_round_aux, shr_fexp, Zdigits2.
  cbn [Pos.mul].
  cbn [digits2_pos]. rewrite Hd.
  match goal with |- context [shr _ (-22 + e) ?n] => replace n with 23 end.
  2: { unfold fexp, emin, F32.prec, F32.emax. cbn [Pos.succ]. lia. }
  unfold shr at 1. cbn [iter_pos shr_1 shr_record_of_loc orb].
  cbn [shr_m loc_of_shr_record round_nearest_even digits2_pos].
  rewrite Hd.
  match goal with |- context [shr _ (-22 + e + 23) ?n] => replace n with 0 end.
  2: { unfold fexp, emin, F32.prec, F32.emax. lia. }
  cbn [shr shr_m shr_record_of_loc].
  unfold F32.emax, F32.prec.
  replace (-22 + e + 23) with (e + 1) by lia.
  destruct (Z.leb_spec (e + 1) (128 - 24)); [reflexivity | lia].
Qed.

Lemma mul_two_subnormal (m : positive) :
  (digits2_pos m < 24)%positive ->
  F32.mul F32.two (S754_finite false m (-149)) = S754_finite false m~0 (-149).
Proof.
  intros Hd.
  change F32.two with (S754_finite false 8388608 (-22)).
  unfold F32.mul, SFmul. cbn [xorb].
  unfold binary_round_aux, shr_fexp, Zdigits2.
  cbn [Pos.mul].
  cbn [digits2_pos].
  match goal with |- context [shr _ (-22 + -149) ?n] => replace n with 22 end.
  2: { unfold fexp, emin, F32.prec, F32.emax. lia. }
  unfold shr at 1. cbn [iter_pos shr_1 shr_record_of_loc orb].
  cbn [shr_m loc_of_shr_record round_nearest_even digits2_pos].
  cbn [digits2_pos].
  match goal with |- context [shr _ (-22 + -149 + 22) ?n] => replace n with 0 end.
  2: { unfold fexp, emin, F32.prec, F32.emax. lia. }
  cbn [shr shr_m shr_record_of_loc].
  reflexivity.
Qed.

(** A finite binary32 value is normal, with a mantissa of 24 bits, or
    subnormal, with the least exponent. *)
Lemma valid_finite_cases (s : bool) (m : positive) (e : Z) :
  F32.valid (S754_finite s m e) = true ->
  (digits2_pos m = 24%positive /\ -149 <= e <= 104)
  \/ ((digits2_pos m < 24)%positive /\ e = -149).
Proof.
  unfold F32.valid, valid_binary, bounded, canonical_mantissa, fexp, emin,
    F32.prec, F32.emax.
  rewrite andb_true_iff, Z.eqb_eq, Z.leb_le.
  intros [Hc He].
  destruct (Pos.compare_spec (digits2_pos m) 24) as [Hd | Hd | Hd].
  - left; split; [assumption | lia].
  - right; split; [assumption | lia].
  - exfalso; lia.
Qed.

(** Doubling maps the binary32 values between 0 and the binary32 value of
    pi/2 to values between 0 and the binary32 value of pi. *)
Lemma double_in_range (a : F32.float) :
  F32.valid a = true ->
  F32.leb F32.zero a = true ->
  F32.leb a F32.pi_2 = true ->
  F32.valid (F32.mul F32.two a) = true
  /\ F32.leb F32.zero (F32.mul F32.two a) = true
  /\ F32.leb (F32.mul F32.two a) F32.pi = true.
Proof.
  intros Hv H0 H1.
  destruct a as [s | s | | s m e].
  - destruct s; repeat split.
  - destruct s; discriminate.
  - discriminate.
  - destruct s; [discriminate | ]. clear H0.
    unfold F32.leb, SFleb, F32.pi_2, SFcompare in H1.
    destruct (valid_finite_cases _ _ _ Hv) as [[Hd He] | [Hd He]]; clear Hv.
    + assert (He' : e <= -23).
      { destruct (Z.compare_spec e (-23)) as [Heq | Hlt | Hgt];
          [clear H1; lia | clear H1; lia | discriminate H1]. }
      rewrite mul_two_normal by (assumption || (clear - He He'; lia)).
      split; [ | split; [reflexivity | ]].
      * unfold F32.valid, valid_binary, bounded, canonical_mantissa, fexp,
          emin, F32.prec, F32.emax.
        rewrite Hd, andb_true_iff, Z.eqb_eq, Z.leb_le. clear - He He'. lia.
      * unfold F32.leb, SFleb, F32.pi, SFcompare.
        destruct (Z.compare_spec e (-23)) as [Heq | Hlt | Hgt];
          [ | | discriminate H1].
        -- subst e. change (-23 + 1 ?= -22) with Eq. cbv iota. exact H1.
        -- destruct (Z.compare_spec (e + 1) (-22)) as [Hx | Hx | Hx];
             try reflexivity; exfalso; clear - Hlt Hx; lia.
    + subst e. rewrite mul_two_subnormal by assumption.
      split; [ | split; reflexivity].
      unfold F32.valid, valid_binary, bounded, canonical_mantissa, fexp,
        emin, F32.prec, F32.emax.
      cbn [digits2_pos]. rewrite andb_true_iff, Z.eqb_eq, Z.leb_le.
      clear - Hd. lia.
Qed.

(** Where [exp] underflows the polar angle is 0, whatever the libm. *)
Lemma theta_of_underflow (m : Libm) (r : FDParticle) :
  m_exp m (F32.opp (eta r)) = F32.zero -> m_atan m F32.zero = F32.zero ->
  theta m r = F32.zero.
Proof.
  intros He Ha. unfold theta, Theta.
  cbn [binary32 a_mul a_atan a_exp a_opp a_lit num].
  now rewrite He, Ha.
Qed.

Lemma polar_angle_at_200 :
  theta RefLibm.libm forward_track = F32.zero
  /\ theta RefLibm.libm backward_track = F32.pi.
Proof. vm_compute. split; reflexivity. Qed.

(** The claim of C2 fails at both ends of the interval: for [eta = 200],
    a finite value, [exp (-eta)] underflows and the polar angle is exactly 0;
    for [eta = -200] it is the binary32 value of pi, which exceeds pi. *)
Lemma polar_angle_reaches_zero :
  F32.is_finite (eta forward_track) = true
  /\ theta RefLibm.libm forward_track = F32.zero
  /\ F32.ltb F32.zero (theta RefLibm.libm forward_track) = false
  /\ F32.is_finite (eta backward_track) = true
  /\ theta RefLibm.libm backward_track = F32.pi
  /\ F32.ltb (theta RefLibm.libm backward_track) F32.pi = false
  /\ (PI < F32.to_R (theta RefLibm.libm backward_track))%R.
Proof.
  destruct polar_angle_at_200 as [Hf Hb]. rewrite Hf, Hb.
  repeat (split; [reflexivity | ]).
  apply pi_constants_nearest.
Qed.

(** C2, amended.  The polar angle of a row is the binary32 value
    [2 * atan (exp (- eta))], a function of the stored [eta] only.  Whenever
    the [atan] of the libm returns a binary32 value between 0 and the
    binary32 value of pi/2, the angle lies in the closed interval from 0 to
    the binary32 value of pi.  For [eta = 0] it is the binary32 value of
    pi/2, given [exp (-0) = 1] and [atan 1] the binary32 value of pi/4.
    Over the reals the same expression lies strictly between 0 and pi and
    is pi/2 at 0. *)
Theorem polar_angle (m : Libm) (r : FDParticle)
    (Hexp : m_exp m (F32.opp F32.zero) = F32.one)
    (Hatan : m_atan m F32.one = F32.pi_4)
    (Hv : F32.valid (m_atan m (m_exp m (F32.opp (eta r)))) = true)
    (Hlo : F32.leb F32.zero (m_atan m (m_exp m (F32.opp (eta r)))) = true)
    (Hhi : F32.leb (m_atan m (m_exp m (F32.opp (eta r)))) F32.pi_2 = true) :
  theta m r = F32.mul F32.two (m_atan m (m_exp m (F32.opp (eta r))))
  /\ (forall r', eta r' = eta r -> theta m r' = theta m r)
  /\ F32.leb F32.zero (theta m r) = true
  /\ F32.leb (theta m r) F32.pi = true
  /\ theta m (with_kinematics r (pt r) F32.zero (phi r)) = F32.pi_2
  /\ (forall x : R, (0 < Theta exact x < PI)%R)
  /\ Theta exact 0%R = (PI / 2)%R.
Proof.
  destruct (double_in_range _ Hv Hlo Hhi) as (_ & H0 & H1).
  split; [reflexivity | ].
  split; [intros r' Heta; unfold theta; now rewrite Heta | ].
  split; [exact H0 | ].
  split; [exact H1 | ].
  split.
  { unfold theta, Theta.
    cbn [binary32 a_mul a_atan a_exp a_opp a_lit num with_kinematics eta].
    rewrite Hexp, Hatan. reflexivity. }
  split; [exact exact_Theta_range | exact exact_Theta_0].
Qed.

Lemma polar_angle_witness :
  theta RefLibm.libm central_track
  = F32.mul F32.two
      (m_atan RefLibm.libm (m_exp RefLibm.libm (F32.opp (eta central_track))))
  /\ (forall r', eta r' = eta central_track ->
        theta RefLibm.libm r' = theta RefLibm.libm central_track)
  /\ F32.leb F32.zero (theta RefLibm.libm central_track) = true
  /\ F32.leb (theta RefLibm.libm central_track) F32.pi = true
  /\ theta RefLibm.libm
       (with_kinematics central_track (pt central_track) F32.zero
          (phi central_track)) = F32.pi_2
  /\ (forall x : R, (0 < Theta exact x < PI)%R)
  /\ Theta exact 0%R = (PI / 2)%R.
Proof.
  apply (polar_angle RefLibm.libm central_track); vm_compute; reflexivity.
Defined.

(** ** The Pythagorean identity *)

(** Where [cosh] overflows a vanishing [pt] makes the momentum NaN,
    whatever the libm. *)
Lemma p_of_overflow (m : Libm) (r : FDParticle) (s : bool) :
  m_cosh m (eta r) = F32.pinf -> pt r = S754_zero s -> p m r = F32.nan.
Proof.
  intros Hc Hpt. unfold p, P. cbn [binary32 a_mul a_cosh num].
  now rewrite Hc, Hpt.
Qed.

(** The claim of C3 fails for the finite triple [pt = 0], [eta = 100],
    [phi = 0]: [cosh] and [sinh] overflow, [pz] and [p] are NaN, which
    compares equal to nothing, itself included. *)
Lemma momentum_of_stopped_track_is_nan :
  F32.is_finite (pt stopped_track) && F32.is_finite (eta stopped_track)
  && F32.is_finite (phi stopped_track) = true
  /\ pz RefLibm.libm stopped_track = F32.nan
  /\ p RefLibm.libm stopped_track = F32.nan
  /\ F32.eqb (F32.mul (p RefLibm.libm stopped_track) (p RefLibm.libm stopped_track))
             (F32.mul (p RefLibm.libm stopped_track) (p RefLibm.libm stopped_track))
     = false.
Proof. vm_compute. repeat split. Qed.

(** Underflow breaks the identity as well: with the smallest positive [pt]
    and [phi] at pi/4 the products [pt * sin(phi)] and [pt * cos(phi)] both
    round up to [pt], and [px^2 + py^2 + pz^2] is twice [p^2]. *)
Lemma faint_track_values :
  px RefLibm.libm faint_track = f_min
  /\ py RefLibm.libm faint_track = f_min
  /\ pz RefLibm.libm faint_track = F32.zero
  /\ p RefLibm.libm faint_track = f_min.
Proof. vm_compute. repeat split. Qed.

Lemma faint_track_doubles :
  let X := F32.to_R (px RefLibm.libm faint_track) in
  let Y := F32.to_R (py RefLibm.libm faint_track) in
  let Z := F32.to_R (pz RefLibm.libm faint_track) in
  let Q := F32.to_R (p RefLibm.libm faint_track) in
  (0 < Q /\ X * X + Y * Y + Z * Z = 2 * (Q * Q))%R.
Proof.
  destruct faint_track_values as (-> & -> & -> & ->).
  cbv zeta. unfold f_min. change (F32.to_R F32.zero) with 0%R.
  cbn [F32.to_R].
  assert (H : (0 < powerRZ 2 (-149))%R) by (apply powerRZ_lt; lra).
  revert H. generalize (powerRZ 2 (-149)). intros t H.
  split; [lra | ring].
Qed.

Lemma square_within (eps a b : R) :
  (0 <= eps)%R -> (Rabs (a - b) <= eps * Rabs b)%R ->
  (Rabs (a * a - b * b) <= (2 * eps + eps * eps) * (b * b))%R.
Proof.
  intros Heps H.
  assert (Hb : (0 <= Rabs b)%R) by apply Rabs_pos.
  assert (Hbb : (Rabs b * Rabs b = b * b)%R).
  { rewrite <- Rabs_mult. apply Rabs_right. nra. }
  replace (a * a - b * b)%R with ((a - b) * ((a - b) + 2 * b))%R by ring.
  rewrite Rabs_mult.
  assert (H2 : (Rabs ((a - b) + 2 * b) <= eps * Rabs b + 2 * Rabs b)%R).
  { eapply Rle_trans; [apply Rabs_triang | ].
    rewrite (Rabs_mult 2 b), (Rabs_right 2) by lra. lra. }
  assert (H3 : (0 <= Rabs (a - b))%R) by apply Rabs_pos.
  assert (H4 : (0 <= Rabs (a - b + 2 * b))%R) by apply Rabs_pos.
  nra.
Qed.

Lemma Rabs_le_bounds (a b : R) : (Rabs a <= b -> - b <= a <= b)%R.
Proof. unfold Rabs; destruct (Rcase_abs a); lra. Qed.

(** ** The rounding of a binary32 product

    [SFmul] multiplies the mantissas exactly and rounds the product with
    [binary_round_aux]: it shifts the surplus bits out, rounds to nearest
    even on the round and sticky bits, and shifts once more if that
    carried.  The lemmas below follow these steps. *)

(** A mantissa has as many bits as [digits2_pos] says. *)
Lemma digits2_pos_bounds (p : positive) :
  2 ^ (Zpos (digits2_pos p) - 1) <= Zpos p < 2 ^ Zpos (digits2_pos p).
Proof.
  induction p as [p IH | p IH | ]; cbn [digits2_pos]; [ | | cbn; lia];
    rewrite Pos2Z.inj_succ;
    replace (Z.succ (Zpos (digits2_pos p)) - 1)
      with (Z.succ (Zpos (digits2_pos p) - 1)) by lia;
    rewrite !Z.pow_succ_r by lia; lia.
Qed.

Lemma digits2_pos_unique (p : positive) (k : Z) :
  2 ^ (k - 1) <= Zpos p < 2 ^ k -> Zpos (digits2_pos p) = k.
Proof.
  intros [Hlo Hhi]. pose proof (digits2_pos_bounds p) as [Dlo Dhi].
  set (d := Zpos (digits2_pos p)) in *.
  assert (Hd : 1 <= d) by (unfold d; lia).
  destruct (Z.lt_trichotomy d k) as [Hlt | [Heq | Hgt]]; [ | assumption | ].
  - assert (2 ^ d <= 2 ^ (k - 1)) by (apply Z.pow_le_mono_r; lia). lia.
  - assert (0 <= k).
    { destruct (Z.le_gt_cases 0 k) as [ | Hneg]; [assumption | ].
      rewrite (Z.pow_neg_r 2 k) in Hhi by lia. lia. }
    assert (2 ^ k <= 2 ^ (d - 1)) by (apply Z.pow_le_mono_r; lia). lia.
Qed.

(** One shift keeps [shr_inv], and so do all of them. *)
Lemma shr_1_inv (M P : Z) (mrs : shr_record) :
  0 < P -> shr_inv M P mrs -> shr_inv M (2 * P) (shr_1 mrs).
Proof.
  destruct mrs as [m r s]. unfold shr_inv. cbn [shr_m shr_r shr_s].
  intros HP (Hm & rem & HM & Hrem & Hr & Hs).
  assert (Hrs : orb r s = true <-> rem <> 0).
  { rewrite orb_true_iff, Hr, Hs. lia. }
  destruct m as [ | [p | p | ] | p]; [ | | | | lia];
    cbn [shr_1 shr_m shr_r shr_s]; (split; [lia | ]).
  - exists rem. rewrite Hrs. repeat split; try lia; try discriminate.
  - exists (rem + P). rewrite Hrs. rewrite (Pos2Z.inj_xI p) in HM.
    repeat split; try lia; try discriminate.
  - exists rem. rewrite Hrs. rewrite (Pos2Z.inj_xO p) in HM.
    repeat split; try lia; try discriminate.
  - exists (rem + P). rewrite Hrs.
    repeat split; try lia; try discriminate.
Qed.

Lemma iter_shr_1_inv (M : Z) (n : positive) :
  forall (P : Z) (mrs : shr_record),
  0 < P -> shr_inv M P mrs -> shr_inv M (P * 2 ^ Zpos n) (iter_pos shr_1 n mrs).
Proof.
  induction n as [n IH | n IH | ]; intros P mrs HP H; cbn [iter_pos].
  - replace (P * 2 ^ Zpos n~1) with (2 * P * 2 ^ Zpos n * 2 ^ Zpos n).
    + assert (0 < 2 ^ Zpos n) by (apply Z.pow_pos_nonneg; lia).
      apply IH; [nia | ]. apply IH; [lia | ]. now apply shr_1_inv.
    + rewrite (Pos2Z.inj_xI n).
      replace (2 * Zpos n + 1) with (Zpos n + Zpos n + 1) by lia.
      rewrite (Z.pow_add_r 2 (Zpos n + Zpos n) 1) by lia.
      rewrite (Z.pow_add_r 2 (Zpos n) (Zpos n)); [ring | lia | lia].
  - replace (P * 2 ^ Zpos n~0) with (P * 2 ^ Zpos n * 2 ^ Zpos n).
    + assert (0 < 2 ^ Zpos n) by (apply Z.pow_pos_nonneg; lia).
      apply IH; [nia | ]. now apply IH.
    + rewrite (Pos2Z.inj_xO n).
      replace (2 * Zpos n) with (Zpos n + Zpos n) by lia.
      rewrite (Z.pow_add_r 2 (Zpos n) (Zpos n)); [ring | lia | lia].
  - replace (P * 2 ^ 1) with (2 * P) by lia. now apply shr_1_inv.
Qed.

(** Rounding to nearest even on the round and sticky bits moves the
    mantissa by at most half of what was shifted out. *)
Lemma round_of_inv (M P : Z) (mrs : shr_record) :
  0 < P -> shr_inv M P mrs ->
  let m2 := round_nearest_even (shr_m mrs) (loc_of_shr_record mrs) in
  shr_m mrs <= m2 <= shr_m mrs + 1 /\ 2 * Z.abs (m2 * P - M) <= P.
Proof.
  destruct mrs as [m r s]. unfold shr_inv.
  cbn [shr_m shr_r shr_s loc_of_shr_record].
  intros HP (Hm & rem & HM & Hrem & Hr & Hs).
  assert (Hr' : if r then P <= 2 * rem else 2 * rem < P).
  { destruct r; [now apply Hr | ].
    destruct (Z.le_gt_cases P (2 * rem)) as [H | H]; [ | assumption].
    apply Hr in H. discriminate. }
  assert (Hs' : if s then rem <> 0 /\ 2 * rem <> P else rem = 0 \/ 2 * rem = P).
  { destruct s; [now apply Hs | ].
    destruct (Z.eq_dec rem 0) as [ | H0]; [now left | ].
    destruct (Z.eq_dec (2 * rem) P) as [ | H1]; [now right | ].
    assert (H : false = true) by (apply Hs; split; assumption). discriminate. }
  subst M.
  destruct r, s; cbn [round_nearest_even]; try destruct (Z.even m); lia.
Qed.

Lemma binary_round_aux_finish (s : bool) (m e : Z) (l : location) :
  binary_round_aux F32.prec F32.emax s m e l
  = let '(mrs, e') := shr_fexp F32.prec F32.emax m e l in
    round_finish s (round_nearest_even (shr_m mrs) (loc_of_shr_record mrs)) e'.
Proof. reflexivity. Qed.

(** The last shift loses nothing. *)
Lemma round_finish_exact (s : bool) (m2 : positive) (e' : Z) :
  fexp F32.prec F32.emax (Zpos (digits2_pos m2) + e') <= e'
  \/ (Zpos m2 = 2 ^ 24 /\ -149 <= e') ->
  round_finish s (Zpos m2) e' = S754_infinity s
  \/ exists m e, round_finish s (Zpos m2) e' = S754_finite s m e
       /\ e' <= e /\ Zpos m * 2 ^ (e - e') = Zpos m2.
Proof.
  unfold round_finish, shr_fexp. cbn [Zdigits2 shr_record_of_loc].
  intros [Ha | [Hb He]].
  - destruct (fexp F32.prec F32.emax (Zpos (digits2_pos m2) + e') - e')
      as [ | n | n] eqn:Hn; [ | lia | ]; cbn [shr shr_m];
      (destruct (e' <=? F32.emax - F32.prec); [right | now left]);
      exists m2, e'; rewrite Z.sub_diag; repeat split; lia.
  - assert (Hd : Zpos (digits2_pos m2) = 25).
    { apply digits2_pos_unique. rewrite Hb. split; [ | reflexivity].
      apply Z.pow_le_mono_r; lia. }
    rewrite Hd.
    assert (Hf : fexp F32.prec F32.emax (25 + e') - e' = 1).
    { unfold fexp, emin, F32.prec, F32.emax. lia. }
    rewrite Hf. cbn [shr iter_pos].
    destruct m2 as [q | q | ]; [lia | | lia].
    cbn [shr_1 shr_m].
    destruct (e' + 1 <=? F32.emax - F32.prec); [right | now left].
    exists q, (e' + 1). replace (e' + 1 - e') with 1 by lia.
    repeat split; lia.
Qed.

(** In the normal range a product that does not overflow is rounded with a
    relative error of at most 2^-24. *)
Lemma round_aux_error (s : bool) (M : positive) (E : Z) :
  -125 <= Zpos (digits2_pos M) + E ->
  binary_round_aux F32.prec F32.emax s (Zpos M) E loc_Exact = S754_infinity s
  \/ exists m e,
       binary_round_aux F32.prec F32.emax s (Zpos M) E loc_Exact = S754_finite s m e
       /\ E <= e /\ 2 ^ 24 * Z.abs (Zpos m * 2 ^ (e - E) - Zpos M) <= Zpos M.
Proof.
  intros Hn. pose proof (digits2_pos_bounds M) as [Dlo Dhi].
  rewrite binary_round_aux_finish.
  unfold shr_fexp. cbn [Zdigits2 shr_record_of_loc].
  set (d := Zpos (digits2_pos M)) in *.
  assert (Hf : fexp F32.prec F32.emax (d + E) = d + E - 24).
  { unfold fexp, emin, F32.prec, F32.emax. lia. }
  rewrite Hf. replace (d + E - 24 - E) with (d - 24) by lia.
  destruct (d - 24) as [ | n | n] eqn:Hd; cbn [shr].
  1, 3: cbn [shr_m loc_of_shr_record round_nearest_even];
    (destruct (round_finish_exact s M E) as [Hinf | (m & e & Hfin & He & Hm)];
     [left; fold d; lia | now left | right]);
    exists m, e; rewrite Hm; repeat split; try assumption; lia.
  set (P := 2 ^ Zpos n).
  assert (HP : 0 < P) by (apply Z.pow_pos_nonneg; lia).
  assert (Hinv : shr_inv (Zpos M) (1 * P)
                   (iter_pos shr_1 n
                      {| shr_m := Zpos M; shr_r := false; shr_s := false |})).
  { apply iter_shr_1_inv; [lia | ]. unfold shr_inv. cbn [shr_m shr_r shr_s].
    split; [lia | ]. exists 0. repeat split; try lia; try discriminate. }
  rewrite Z.mul_1_l in Hinv.
  destruct (round_of_inv _ _ _ HP Hinv) as [_ Hround].
  set (m2 := round_nearest_even _ _) in *.
  assert (Hlo : 2 ^ 23 * P <= Zpos M).
  { replace (2 ^ 23 * P) with (2 ^ (d - 1)); [assumption | ].
    replace (d - 1) with (23 + Zpos n) by lia.
    now rewrite Z.pow_add_r by lia. }
  assert (Hhi : Zpos M < 2 ^ 24 * P).
  { replace (2 ^ 24 * P) with (2 ^ d); [assumption | ].
    replace d with (24 + Zpos n) by lia.
    now rewrite Z.pow_add_r by lia. }
  assert (Hm2 : 2 ^ 23 <= m2 <= 2 ^ 24) by nia.
  destruct m2 as [ | q | q] eqn:Hq; [lia | | lia].
  destruct (round_finish_exact s q (E + Zpos n)) as [Hinf | (m & e & Hfin & He & Hm)].
  { destruct (Z.eq_dec (Zpos q) (2 ^ 24)) as [Heq | Hne]; [right; lia | left].
    rewrite (digits2_pos_unique q 24) by lia.
    unfold fexp, emin, F32.prec, F32.emax. lia. }
  { now left. }
  right. exists m, e. split; [assumption | ]. split; [lia | ].
  replace (e - E) with (e - (E + Zpos n) + Zpos n) by lia.
  rewrite Z.pow_add_r by lia. fold P.
  rewrite Z.mul_assoc, Hm. lia.
Qed.

Lemma IZR_pow2 (k : Z) : 0 <= k -> IZR (2 ^ k) = powerRZ 2 k.
Proof.
  intros Hk. rewrite <- (Z2Nat.id k) at 1 by assumption.
  now rewrite <- pow_IZR, pow_powerRZ, Z2Nat.id by assumption.
Qed.

Lemma powerRZ_2_pos (k : Z) : (0 < powerRZ 2 k)%R.
Proof. apply powerRZ_lt. lra. Qed.

Lemma powerRZ_2_le (n k : Z) : n <= k -> (powerRZ 2 n <= powerRZ 2 k)%R.
Proof.
  intros H. replace k with (n + (k - n)) by lia.
  rewrite powerRZ_add by lra.
  assert (H1 : (1 <= powerRZ 2 (k - n))%R).
  { rewrite <- (Z2Nat.id (k - n)) by lia. rewrite <- pow_powerRZ.
    apply pow_R1_Rle. lra. }
  pose proof (powerRZ_2_pos n). nra.
Qed.

Lemma to_R_finite_mul (sx sy : bool) (mx my : positive) (ex ey : Z) :
  (F32.to_R (S754_finite sx mx ex) * F32.to_R (S754_finite sy my ey)
   = (if xorb sx sy then -1 else 1) * (IZR (Zpos (mx * my)) * powerRZ 2 (ex + ey)))%R.
Proof.
  cbn [F32.to_R]. rewrite Pos2Z.inj_mul, mult_IZR, powerRZ_add by lra.
  destruct sx, sy; cbn [xorb]; ring.
Qed.

Lemma Rabs_sign (s : bool) (t : R) :
  Rabs ((if s then -1 else 1) * t) = Rabs t.
Proof.
  destruct s; [ | now rewrite Rmult_1_l].
  replace (-1 * t)%R with (- t)%R by ring. apply Rabs_Ropp.
Qed.

(** The same over the reals: the binary32 product of two finite values that
    neither overflows nor underflows is within 2^-24 of the exact product,
    relatively. *)
Lemma mul_error (x y : F32.float) :
  F32.is_finite x = true -> F32.is_finite y = true ->
  F32.is_finite (F32.mul x y) = true ->
  no_underflow x y ->
  (Rabs (F32.to_R (F32.mul x y) - F32.to_R x * F32.to_R y)
   <= powerRZ 2 (-24) * Rabs (F32.to_R x * F32.to_R y))%R.
Proof.
  intros Hx Hy Hxy Hu.
  destruct x as [sx | sx | | sx mx ex]; try discriminate Hx;
    destruct y as [sy | sy | | sy my ey]; try discriminate Hy;
    try (cbn [F32.mul SFmul F32.to_R];
         rewrite ?Rmult_0_l, ?Rmult_0_r, Rminus_diag, Rabs_R0; lra).
  clear Hx Hy.
  unfold no_underflow in Hu. rewrite to_R_finite_mul in *.
  rewrite Rabs_sign in *.
  set (M := (mx * my)%positive) in *. set (E := ex + ey) in *.
  assert (HM : (0 < IZR (Zpos M))%R) by (apply IZR_lt; lia).
  pose proof (powerRZ_2_pos E) as HE.
  assert (Hpos : (0 < IZR (Zpos M) * powerRZ 2 E)%R) by (apply Rmult_lt_0_compat; assumption).
  rewrite (Rabs_right (IZR (Zpos M) * powerRZ 2 E)) in * by lra.
  destruct Hu as [Hu | Hu]; [ | ].
  { destruct (xorb sx sy); lra. }
  assert (Hn : -125 <= Zpos (digits2_pos M) + E).
  { pose proof (digits2_pos_bounds M) as [_ Dhi].
    set (d := Zpos (digits2_pos M)) in *.
    assert (Hd : 0 <= d) by (unfold d; lia).
    apply IZR_lt in Dhi. rewrite (IZR_pow2 d Hd) in Dhi.
    assert (Hlt : (powerRZ 2 (-126) < powerRZ 2 (d + E))%R).
    { rewrite powerRZ_add by lra.
      apply Rle_lt_trans with (1 := Hu).
      apply Rmult_lt_compat_r; assumption. }
    destruct (Z.le_gt_cases (d + E) (-126)) as [Hle | Hgt]; [ | lia].
    apply powerRZ_2_le in Hle. lra. }
  unfold F32.mul, SFmul in *. fold M E in Hxy |- *.
  destruct (round_aux_error (xorb sx sy) M E Hn) as [Hinf | (m & e & Hfin & He & Hm)].
  { rewrite Hinf in Hxy. discriminate. }
  rewrite Hfin. cbn [F32.to_R].
  replace (powerRZ 2 e) with (IZR (2 ^ (e - E)) * powerRZ 2 E)%R.
  2:{ rewrite IZR_pow2 by lia. rewrite <- powerRZ_add by lra. f_equal. lia. }
  replace ((if xorb sx sy then -1 else 1) * IZR (Z.pos m)
             * (IZR (2 ^ (e - E)) * powerRZ 2 E)
           - (if xorb sx sy then -1 else 1) * (IZR (Z.pos M) * powerRZ 2 E))%R
    with ((if xorb sx sy then -1 else 1)
          * (IZR (Zpos m * 2 ^ (e - E) - Zpos M) * powerRZ 2 E))%R
    by (rewrite minus_IZR, mult_IZR; ring).
  rewrite Rabs_sign, Rabs_mult, (Rabs_right (powerRZ 2 E)) by lra.
  rewrite <- abs_IZR.
  apply IZR_le in Hm. rewrite mult_IZR, IZR_pow2 in Hm by lia.
  rewrite <- Rmult_assoc. apply Rmult_le_compat_r; [lra | ].
  assert (H24 : (powerRZ 2 24 * powerRZ 2 (-24) = 1)%R).
  { rewrite <- powerRZ_add by lra. reflexivity. }
  pose proof (powerRZ_2_pos 24) as P24. pose proof (powerRZ_2_pos (-24)) as N24.
  set (A := IZR (Z.abs (Zpos m * 2 ^ (e - E) - Zpos M))) in *.
  set (a := powerRZ 2 24) in *. set (b := powerRZ 2 (-24)) in *.
  assert (H : (b * (a * A) <= b * IZR (Zpos M))%R) by (apply Rmult_le_compat_l; lra).
  replace (b * (a * A))%R with ((a * b) * A)%R in H by ring.
  rewrite H24 in H. lra.
Qed.

Lemma sum_of_squares_within (eps x y z q X Y Z Q : R) :
  (0 <= eps)%R ->
  (x * x + y * y + z * z = q * q)%R ->
  (Rabs (X - x) <= eps * Rabs x)%R ->
  (Rabs (Y - y) <= eps * Rabs y)%R ->
  (Rabs (Z - z) <= eps * Rabs z)%R ->
  (Rabs (Q - q) <= eps * Rabs q)%R ->
  (Rabs (X * X + Y * Y + Z * Z - Q * Q)
   <= (4 * eps + 2 * (eps * eps)) * (q * q))%R.
Proof.
  intros Heps Hid Hx Hy Hz Hp.
  apply (square_within eps _ _ Heps) in Hx, Hy, Hz, Hp.
  apply Rabs_le_bounds in Hx, Hy, Hz, Hp.
  apply Rabs_le.
  assert (Hc : (0 <= 2 * eps + eps * eps)%R) by nra.
  nra.
Qed.

(** A component [pt * f(angle)]: the libm value is within [delta] of the
    function, the product within 2^-24 of the exact product. *)
Lemma product_within (delta : R) (a s : F32.float) (v : R) :
  (0 <= delta)%R ->
  F32.is_finite a = true ->
  within delta s v ->
  product_in_range a s ->
  (Rabs (F32.to_R (F32.mul a s) - F32.to_R a * v)
   <= (delta + powerRZ 2 (-24) + delta * powerRZ 2 (-24)) * Rabs (F32.to_R a * v))%R.
Proof.
  intros Hd Ha [Hs Hv] [Hfin Hu].
  pose proof (mul_error a s Ha Hs Hfin Hu) as Hm.
  pose proof (powerRZ_2_pos (-24)) as Hpos.
  set (u := powerRZ 2 (-24)) in *.
  set (A := F32.to_R a) in *. set (S := F32.to_R s) in *.
  set (P := F32.to_R (F32.mul a s)) in *.
  rewrite Rabs_mult in Hm |- *.
  assert (HA : (0 <= Rabs A)%R) by apply Rabs_pos.
  assert (HV : (0 <= Rabs v)%R) by apply Rabs_pos.
  assert (HS : (Rabs S <= (1 + delta) * Rabs v)%R).
  { replace S with ((S - v) + v)%R by ring.
    eapply Rle_trans; [apply Rabs_triang | ]. lra. }
  replace (P - A * v)%R with ((P - A * S) + A * (S - v))%R by ring.
  eapply Rle_trans; [apply Rabs_triang | ].
  rewrite (Rabs_mult A (S - v)).
  assert (H1 : (Rabs A * Rabs (S - v) <= Rabs A * (delta * Rabs v))%R)
    by (apply Rmult_le_compat_l; assumption).
  assert (H2 : (u * (Rabs A * Rabs S) <= u * (Rabs A * ((1 + delta) * Rabs v)))%R).
  { apply Rmult_le_compat_l; [lra | ]. apply Rmult_le_compat_l; assumption. }
  nra.
Qed.

(** C3, amended.  For every row with a finite [pt], for a libm whose
    [sin(phi)], [cos(phi)], [sinh(eta)] and [cosh(eta)] are finite and within
    a relative error [delta] of the functions over the reals, and whose four
    products with [pt] neither overflow nor underflow, the derived
    components satisfy the identity within the tolerance
    [(4 eps + 2 eps^2) (pt cosh(eta))^2], where [eps] combines [delta] with
    the rounding 2^-24 of the binary32 product:
    [eps = delta + 2^-24 + delta 2^-24]. *)
Theorem pythagoras_within_tolerance (m : Libm) (r : FDParticle) (delta : R)
    (Hdelta : (0 <= delta)%R)
    (Hpt : F32.is_finite (pt r) = true)
    (Hsin : within delta (m_sin m (phi r)) (sin (F32.to_R (phi r))))
    (Hcos : within delta (m_cos m (phi r)) (cos (F32.to_R (phi r))))
    (Hsinh : within delta (m_sinh m (eta r)) (sinh (F32.to_R (eta r))))
    (Hcosh : within delta (m_cosh m (eta r)) (cosh (F32.to_R (eta r))))
    (Hx : product_in_range (pt r) (m_sin m (phi r)))
    (Hy : product_in_range (pt r) (m_cos m (phi r)))
    (Hz : product_in_range (pt r) (m_sinh m (eta r)))
    (Hp : product_in_range (pt r) (m_cosh m (eta r))) :
  let eps := (delta + powerRZ 2 (-24) + delta * powerRZ 2 (-24))%R in
  let X := F32.to_R (px m r) in
  let Y := F32.to_R (py m r) in
  let Z := F32.to_R (pz m r) in
  let Q := F32.to_R (p m r) in
  let q := P exact (F32.to_R (pt r)) (F32.to_R (eta r)) in
  (Rabs (X * X + Y * Y + Z * Z - Q * Q)
   <= (4 * eps + 2 * (eps * eps)) * (q * q))%R.
Proof.
  intros eps X Y Z Q q.
  assert (Heps : (0 <= eps)%R).
  { pose proof (powerRZ_2_pos (-24)). unfold eps. nra. }
  apply (sum_of_squares_within eps
           (Px exact (F32.to_R (pt r)) (F32.to_R (phi r)))
           (Py exact (F32.to_R (pt r)) (F32.to_R (phi r)))
           (Pz exact (F32.to_R (pt r)) (F32.to_R (eta r))) q);
    [exact Heps | apply exact_pythagoras | | | | ].
  - exact (product_within delta _ _ _ Hdelta Hpt Hsin Hx).
  - exact (product_within delta _ _ _ Hdelta Hpt Hcos Hy).
  - exact (product_within delta _ _ _ Hdelta Hpt Hsinh Hz).
  - exact (product_within delta _ _ _ Hdelta Hpt Hcosh Hp).
Qed.

(** The row [inclined_track]: the values of the reference libm, and series
    bounds of [sin] and [cos] at 1/8. *)
Lemma inclined_track_libm :
  m_sin RefLibm.libm f_1_8 = S754_finite false 16733559 (-27)
  /\ m_cos RefLibm.libm f_1_8 = S754_finite false 16646315 (-24)
  /\ m_sinh RefLibm.libm F32.zero = F32.zero
  /\ m_cosh RefLibm.libm F32.zero = S754_finite false 8388608 (-23).
Proof. vm_compute. repeat split. Qed.

(** The components of the row.  Both [px] and [py] are rounded: the exact
    products of the mantissas are not the results shifted by 24 bits. *)
Lemma inclined_track_values :
  px RefLibm.libm inclined_track = S754_finite false 12550169 (-26)
  /\ py RefLibm.libm inclined_track = S754_finite false 12484736 (-23)
  /\ pz RefLibm.libm inclined_track = F32.zero
  /\ p RefLibm.libm inclined_track = f_3_2
  /\ (12582912 * 16733559 <> 12550169 * 2 ^ 24)
  /\ (12582912 * 16646315 <> 12484736 * 2 ^ 24).
Proof.
  destruct inclined_track_libm as (Hsin & Hcos & Hsinh & Hcosh).
  unfold px, py, pz, p, Px, Py, Pz, P.
  cbn [binary32 a_mul a_sin a_cos a_sinh a_cosh num inclined_track
       with_kinematics pt eta phi].
  rewrite Hsin, Hcos, Hsinh, Hcosh. vm_compute. repeat split; discriminate.
Qed.

Lemma powerRZ_2_Zneg (k : positive) :
  powerRZ 2 (Zneg k) = (/ IZR (2 ^ Zpos k))%R.
Proof. rewrite IZR_pow2 by lia. reflexivity. Qed.

Lemma to_R_literal (s : bool) (m k : positive) :
  F32.to_R (S754_finite s m (Zneg k))
  = ((if s then -1 else 1) * IZR (Zpos m) / IZR (2 ^ Zpos k))%R.
Proof. cbn [F32.to_R]. now rewrite powerRZ_2_Zneg. Qed.

Lemma sin_eighth :
  (1 / 8 - (1 / 8) ^ 3 / 6 + (1 / 8) ^ 5 / 120 - (1 / 8) ^ 7 / 5040
   <= sin (1 / 8)
   <= 1 / 8 - (1 / 8) ^ 3 / 6 + (1 / 8) ^ 5 / 120 - (1 / 8) ^ 7 / 5040
      + (1 / 8) ^ 9 / 362880)%R.
Proof.
  pose proof (pre_sin_bound (1 / 8) 1) as H.
  assert (F : forall n z, Z.of_nat (fact n) = z -> INR (fact n) = IZR z).
  { intros n z <-. apply INR_IZR_INZ. }
  unfold sin_approx, sin_term in H.
  cbn [sum_f_R0 Nat.mul Nat.add] in H.
  rewrite (F 1%nat 1), (F 3%nat 6), (F 5%nat 120), (F 7%nat 5040),
    (F 9%nat 362880) in H by (vm_compute; reflexivity).
  cbn [pow] in H. lra.
Qed.

Lemma cos_eighth :
  (1 - (1 / 8) ^ 2 / 2 + (1 / 8) ^ 4 / 24 - (1 / 8) ^ 6 / 720
   <= cos (1 / 8)
   <= 1 - (1 / 8) ^ 2 / 2 + (1 / 8) ^ 4 / 24 - (1 / 8) ^ 6 / 720
      + (1 / 8) ^ 8 / 40320)%R.
Proof.
  pose proof (pre_cos_bound (1 / 8) 1) as H.
  assert (F : forall n z, Z.of_nat (fact n) = z -> INR (fact n) = IZR z).
  { intros n z <-. apply INR_IZR_INZ. }
  unfold cos_approx, cos_term in H.
  cbn [sum_f_R0 Nat.mul Nat.add] in H.
  rewrite (F 0%nat 1), (F 2%nat 2), (F 4%nat 24), (F 6%nat 720),
    (F 8%nat 40320) in H by (vm_compute; reflexivity).
  cbn [pow] in H. lra.
Qed.

Lemma to_R_dyadic (s : bool) (m k : positive) (z : Z) :
  2 ^ Zpos k = z ->
  F32.to_R (S754_finite s m (Zneg k))
  = ((if s then -1 else 1) * IZR (Zpos m) / IZR z)%R.
Proof. intros <-. apply to_R_literal. Qed.

Lemma smallest_normal :
  powerRZ 2 (-126) = (/ 85070591730234615865843651857942052864)%R.
Proof. now rewrite powerRZ_2_Zneg. Qed.

Lemma pythagoras_within_tolerance_witness :
  let delta := (/ 1000000)%R in
  let eps := (delta + powerRZ 2 (-24) + delta * powerRZ 2 (-24))%R in
  let X := F32.to_R (px RefLibm.libm inclined_track) in
  let Y := F32.to_R (py RefLibm.libm inclined_track) in
  let Z := F32.to_R (pz RefLibm.libm inclined_track) in
  let Q := F32.to_R (p RefLibm.libm inclined_track) in
  let q := P exact (F32.to_R (pt inclined_track)) (F32.to_R (eta inclined_track)) in
  (Rabs (X * X + Y * Y + Z * Z - Q * Q)
   <= (4 * eps + 2 * (eps * eps)) * (q * q))%R.
Proof.
  destruct inclined_track_libm as (Hsin & Hcos & Hsinh & Hcosh).
  pose proof sin_eighth as Bs. pose proof cos_eighth as Bc.
  assert (Hphi : F32.to_R f_1_8 = (1 / 8)%R).
  { unfold f_1_8. rewrite (to_R_dyadic false _ 26 67108864 eq_refl). lra. }
  assert (Hpt : F32.to_R f_3_2 = (3 / 2)%R).
  { unfold f_3_2. rewrite (to_R_dyadic false _ 23 8388608 eq_refl). lra. }
  apply (pythagoras_within_tolerance RefLibm.libm inclined_track (/ 1000000)%R);
    change (pt inclined_track) with f_3_2;
    change (eta inclined_track) with F32.zero;
    change (phi inclined_track) with f_1_8;
    rewrite ?Hsin, ?Hcos, ?Hsinh, ?Hcosh.
  - lra.
  - reflexivity.
  - split; [reflexivity | ].
    rewrite Hphi, (to_R_dyadic false _ 27 134217728 eq_refl).
    rewrite (Rabs_right (sin (1 / 8))) by lra.
    apply Rabs_le. lra.
  - split; [reflexivity | ].
    rewrite Hphi, (to_R_dyadic false _ 24 16777216 eq_refl).
    rewrite (Rabs_right (cos (1 / 8))) by lra.
    apply Rabs_le. lra.
  - split; [reflexivity | ].
    change (F32.to_R F32.zero) with 0%R.
    rewrite sinh_0, Rminus_diag, Rabs_R0. lra.
  - split; [reflexivity | ].
    change (F32.to_R F32.zero) with 0%R.
    rewrite cosh_0, (to_R_dyadic false _ 23 8388608 eq_refl).
    replace (1 * 8388608 / 8388608 - 1)%R with 0%R by lra.
    rewrite Rabs_R0, Rabs_R1. lra.
  - split; [vm_compute; reflexivity | right].
    rewrite Hpt, (to_R_dyadic false _ 27 134217728 eq_refl), smallest_normal.
    rewrite Rabs_right; lra.
  - split; [vm_compute; reflexivity | right].
    rewrite Hpt, (to_R_dyadic false _ 24 16777216 eq_refl), smallest_normal.
    rewrite Rabs_right; lra.
  - split; [vm_compute; reflexivity | left].
    change (F32.to_R F32.zero) with 0%R. lra.
  - split; [vm_compute; reflexivity | right].
    rewrite Hpt, (to_R_dyadic false _ 23 8388608 eq_refl), smallest_normal.
    rewrite Rabs_right; lra.
Defined.

(** * Further properties of the header *)

(** ** Tables and their columns *)

Lemma distinct_NoDup (l : list string) : distinct l = true -> NoDup l.
Proof.
  induction l as [ | x l IH]; intros H; [constructor | ].
  cbn [distinct] in H. apply andb_prop in H. destruct H as [Hx Hl].
  constructor; [ | now apply IH].
  intros Hin. apply negb_true_iff in Hx.
  assert (Hex : existsb (String.eqb x) l = true).
  { apply existsb_exists. exists x. split; [assumption | apply String.eqb_refl]. }
  congruence.
Qed.

Lemma existsb_eqb_In (s : string) (l : list string) :
  existsb (String.eqb s) l = true -> In s l.
Proof.
  intros H. apply existsb_exists in H. destruct H as (x & Hin & Heq).
  apply String.eqb_eq in Heq. now subst.
Qed.

Lemma resolve_declared (name : string) (c : column) :
  resolve name = Some c -> In c declared_columns /\ reference_name c = name.
Proof.
  unfold resolve. intros H. apply find_some in H. destruct H as [Hin Heq].
  apply String.eqb_eq in Heq. now split.
Qed.

Lemma argument_ok_spec (t : table) (p : ctype) (a : string) :
  argument_ok t p a = true ->
  In a (t_columns t)
  /\ ((exists c, resolve a = Some c /\ stored_type c = Some p)
      \/ (resolve a = None /\ In a external_columns)).
Proof.
  unfold argument_ok. rewrite andb_true_iff. intros [Hin Hty].
  split; [now apply existsb_eqb_In | ].
  destruct (resolve a) as [c | ].
  - left. exists c. split; [reflexivity | ].
    destruct (stored_type c) as [ty | ]; [ | discriminate].
    destruct ty, p; try discriminate; reflexivity.
  - right. split; [reflexivity | now apply existsb_eqb_In].
Qed.

Lemma arguments_ok_spec (t : table) (params : list ctype) (args : list string) :
  arguments_ok t params args = true ->
  Forall2 (fun p a =>
             In a (t_columns t)
             /\ ((exists c, resolve a = Some c /\ stored_type c = Some p)
                 \/ (resolve a = None /\ In a external_columns)))
          params args.
Proof.
  revert args. induction params as [ | p ps IH]; intros [ | a args] H;
    try discriminate; [constructor | ].
  cbn [arguments_ok] in H. apply andb_prop in H. destruct H as [Ha Hrest].
  constructor; [now apply argument_ok_spec | now apply IH].
Qed.

Lemma references_ok_all :
  forallb (fun t => forallb (reference_ok t) (t_columns t)) declared_tables = true.
Proof. vm_compute. reflexivity. Qed.

(** X1.  Every column reference of every table names a column of another
    header or a column this header declares.  A reference to a stored or
    index column has no arguments; a reference to a dynamic column has one
    argument per parameter of the lambda, each argument is itself a column
    of the same table, and a declared argument holds values of the type of
    the parameter it is bound to. *)
Theorem table_references_resolve (t : table) (ref : string)
    (Ht : In t declared_tables) (Href : In ref (t_columns t)) :
  In ref external_columns
  \/ exists c, In c declared_columns
       /\ reference_name c = fst (parse_reference ref)
       /\ match c_kind c with
          | DynamicColumn params _ =>
              Forall2 (fun p a =>
                         In a (t_columns t)
                         /\ ((exists c', resolve a = Some c'
                                         /\ stored_type c' = Some p)
                             \/ (resolve a = None /\ In a external_columns)))
                      params (snd (parse_reference ref))
          | _ => snd (parse_reference ref) = []
          end.
Proof.
  pose proof references_ok_all as H.
  rewrite forallb_forall in H. specialize (H t Ht).
  rewrite forallb_forall in H. specialize (H ref Href).
  unfold reference_ok in H.
  destruct (is_external ref) eqn:Hext.
  { left. now apply existsb_eqb_In. }
  right. destruct (parse_reference ref) as [head args]. cbn [fst snd].
  destruct (resolve head) as [c | ] eqn:Hres; [ | discriminate].
  apply resolve_declared in Hres. destruct Hres as [Hin Hname].
  exists c. split; [assumption | ]. split; [assumption | ].
  destruct (c_kind c); try (destruct args; [reflexivity | discriminate]).
  now apply arguments_ok_spec.
Qed.

Lemma table_references_resolve_witness :
  let ref := "femtodreamparticle::Px<femtodreamparticle::Pt, femtodreamparticle::Phi>"%string in
  In ref external_columns
  \/ exists c, In c declared_columns
       /\ reference_name c = fst (parse_reference ref)
       /\ match c_kind c with
          | DynamicColumn params _ =>
              Forall2 (fun p a =>
                         In a (t_columns FDParticles)
                         /\ ((exists c', resolve a = Some c'
                                         /\ stored_type c' = Some p)
                             \/ (resolve a = None /\ In a external_columns)))
                      params (snd (parse_reference ref))
          | _ => snd (parse_reference ref) = []
          end.
Proof.
  apply (table_references_resolve FDParticles "femtodreamparticle::Px<femtodreamparticle::Pt, femtodreamparticle::Phi>"%string); cbn; tauto.
Defined.

(** X2.  Six references bind a dynamic column: the polar angle and the four
    momentum components in [FDParticles], the crossed-rows ratio in
    [FDExtParticles].  No other table has a dynamic column; in particular
    the generated particles of [FDMCParticles], which store [pt], [eta] and
    [phi] too, have none. *)
Theorem dynamic_columns_of_tables :
  flat_map dynamic_references declared_tables
  = [("FDParticles", ("femtodreamparticle::Theta", ["femtodreamparticle::Eta"]));
     ("FDParticles", ("femtodreamparticle::Px",
                      ["femtodreamparticle::Pt"; "femtodreamparticle::Phi"]));
     ("FDParticles", ("femtodreamparticle::Py",
                      ["femtodreamparticle::Pt"; "femtodreamparticle::Phi"]));
     ("FDParticles", ("femtodreamparticle::Pz",
                      ["femtodreamparticle::Pt"; "femtodreamparticle::Eta"]));
     ("FDParticles", ("femtodreamparticle::P",
                      ["femtodreamparticle::Pt"; "femtodreamparticle::Eta"]));
     ("FDExtParticles", ("femtodreamparticle::TPCCrossedRowsOverFindableCls",
                         ["track::TPCNClsFindable";
                          "femtodreamparticle::TPCNClsCrossedRows"]))]%string
  /\ (forall t, In t declared_tables ->
        t_name t <> "FDParticles"%string -> t_name t <> "FDExtParticles"%string ->
        forall c, In c (columns_of t) -> is_dynamic c = false)
  /\ map reference_name (filter is_dynamic declared_columns)
     = map (fun d => fst (snd d)) (flat_map dynamic_references declared_tables).
Proof.
  split; [vm_compute; reflexivity | ].
  split; [ | vm_compute; reflexivity].
  assert (H : forallb (fun t =>
                if String.eqb (t_name t) "FDParticles"
                   || String.eqb (t_name t) "FDExtParticles"
                then true
                else forallb (fun c => negb (is_dynamic c)) (columns_of t))
              declared_tables = true) by (vm_compute; reflexivity).
  intros t Ht Hn1 Hn2 c Hc.
  rewrite forallb_forall in H. specialize (H t Ht).
  apply String.eqb_neq in Hn1, Hn2. rewrite Hn1, Hn2 in H. cbn [orb] in H.
  rewrite forallb_forall in H. specialize (H c Hc).
  now apply negb_true_iff in H.
Qed.

(** X3.  The header declares 89 columns.  All of them are part of some
    table except two of namespace [fdhf]: the collision index and
    [IsCandidateSwapped]. *)
Theorem unused_declared_columns :
  List.length declared_columns = 89%nat
  /\ map reference_name (filter (fun c => negb (is_used c)) declared_columns)
     = ["fdhf::CollisionId"; "fdhf::IsCandidateSwapped"]%string
  /\ (forall c, In c declared_columns ->
        reference_name c <> "fdhf::CollisionId"%string ->
        reference_name c <> "fdhf::IsCandidateSwapped"%string ->
        exists t, In t declared_tables /\ In c (columns_of t)).
Proof.
  split; [reflexivity | ]. split; [vm_compute; reflexivity | ].
  assert (H : forallb (fun c =>
                String.eqb (reference_name c) "fdhf::CollisionId"
                || String.eqb (reference_name c) "fdhf::IsCandidateSwapped"
                || existsb (fun t =>
                     existsb (fun c' =>
                        String.eqb (reference_name c') (reference_name c))
                       (columns_of t)) declared_tables)
              declared_columns = true) by (vm_compute; reflexivity).
  assert (Hinj : NoDup (map reference_name declared_columns)).
  { apply distinct_NoDup. vm_compute. reflexivity. }
  intros c Hc Hn1 Hn2.
  rewrite forallb_forall in H. specialize (H c Hc).
  apply String.eqb_neq in Hn1, Hn2. rewrite Hn1, Hn2 in H. cbn [orb] in H.
  apply existsb_exists in H. destruct H as (t & Ht & H).
  apply existsb_exists in H. destruct H as (c' & Hc' & Heq).
  apply String.eqb_eq in Heq.
  exists t. split; [assumption | ].
  assert (Hd : In c' declared_columns).
  { unfold columns_of in Hc'. apply in_flat_map in Hc'.
    destruct Hc' as (ref & _ & Hin).
    destruct (resolve (fst (parse_reference ref))) as [c0 | ] eqn:Hres;
      [ | contradiction].
    destruct Hin as [<- | []]. now apply resolve_declared in Hres. }
  replace c with c'; [assumption | ].
  clear - Hinj Hd Hc Heq.
  induction declared_columns as [ | x l IH]; [contradiction | ].
  cbn [map] in Hinj. inversion Hinj as [ | ? ? Hx Hl]; subst.
  destruct Hd as [-> | Hd], Hc as [-> | Hc]; try reflexivity.
  - exfalso. apply Hx. rewrite Heq. now apply in_map.
  - exfalso. apply Hx. rewrite <- Heq. now apply in_map.
  - now apply IH.
Qed.

(** X4.  No two declared columns share a name, no table lists a column
    twice, and within a table no two declared columns share a getter. *)
Theorem columns_are_distinct :
  NoDup (map reference_name declared_columns)
  /\ Forall (fun t => NoDup (t_columns t)
                      /\ NoDup (map c_getter (columns_of t)))
            declared_tables.
Proof.
  split; [apply distinct_NoDup; vm_compute; reflexivity | ].
  assert (H : forallb (fun t => distinct (t_columns t)
                                && distinct (map c_getter (columns_of t)))
                      declared_tables = true) by (vm_compute; reflexivity).
  apply Forall_forall. intros t Ht.
  rewrite forallb_forall in H. specialize (H t Ht).
  apply andb_prop in H. destruct H as [H1 H2].
  split; now apply distinct_NoDup.
Qed.

Lemma table_name_neq (t u : table) : t_name t <> t_name u -> t <> u.
Proof. intros H E. apply H. now rewrite E. Qed.

(** X16.  Every index column that a table holds is named after the rows of
    a table of this header, [Name] pointing into table [Names], and no table
    holds an index into itself that way; the list of children is held by
    [FDParticles] alone, the table it points into.  The collision index of
    namespace [fdhf], which no table holds, is named after no row of this
    header. *)
Theorem index_columns_point_to_tables :
  Forall (fun c =>
            tables_with c = []
            \/ exists t, table_of_row (c_name c) = Some t
                  /\ In t declared_tables
                  /\ t_name t = (c_name c ++ "s")%string
                  /\ ~ In t (tables_with c))
         (filter is_index declared_columns)
  /\ map reference_name (filter is_index declared_columns)
     = ["femtodreamparticle::FDCollisionId"; "fdhf::CollisionId";
        "mcfdlabel::FDMCParticleId"; "mcfdextlabel::FDExtMCParticleId"]%string
  /\ table_of_row "Collision" = None
  /\ Forall (fun c => tables_with c = [FDParticles])
            (filter is_self_array_index declared_columns).
Proof.
  assert (Hidx : filter is_index declared_columns
                 = [ {| c_namespace := "femtodreamparticle"; c_name := "FDCollision";
                        c_getter := "fdCollision"; c_kind := IndexColumn |};
                     {| c_namespace := "fdhf"; c_name := "Collision";
                        c_getter := "collision"; c_kind := IndexColumn |};
                     {| c_namespace := "mcfdlabel"; c_name := "FDMCParticle";
                        c_getter := "fdMCParticle"; c_kind := IndexColumn |};
                     {| c_namespace := "mcfdextlabel"; c_name := "FDExtMCParticle";
                        c_getter := "fdExtMCParticle"; c_kind := IndexColumn |} ])
    by (vm_compute; reflexivity).
  rewrite Hidx. clear Hidx.
  split.
  { constructor; [ | constructor; [ | constructor; [ | constructor; [ | constructor]]]].
    - right. exists FDCollisions.
      split; [vm_compute; reflexivity | ].
      split; [unfold declared_tables; cbn [In]; tauto | ].
      split; [vm_compute; reflexivity | ].
      match goal with |- ~ In _ ?l =>
        replace l with [FDHfCand; FDHfCandMCGen; FDParticles]
          by (vm_compute; reflexivity) end.
      cbn [In]. intros [H | [H | [H | []]]]; revert H;
        apply table_name_neq; vm_compute; discriminate.
    - left. vm_compute. reflexivity.
    - right. exists FDMCParticles.
      split; [vm_compute; reflexivity | ].
      split; [unfold declared_tables; cbn [In]; tauto | ].
      split; [vm_compute; reflexivity | ].
      match goal with |- ~ In _ ?l =>
        replace l with [FDMCLabels] by (vm_compute; reflexivity) end.
      cbn [In]. intros [H | []]; revert H;
        apply table_name_neq; vm_compute; discriminate.
    - right. exists FDExtMCParticles.
      split; [vm_compute; reflexivity | ].
      split; [unfold declared_tables; cbn [In]; tauto | ].
      split; [vm_compute; reflexivity | ].
      match goal with |- ~ In _ ?l =>
        replace l with [FDExtMCLabels] by (vm_compute; reflexivity) end.
      cbn [In]. intros [H | []]; revert H;
        apply table_name_neq; vm_compute; discriminate. }
  split; [vm_compute; reflexivity | ]. split; [vm_compute; reflexivity | ].
  assert (Hself : filter is_self_array_index declared_columns
                  = [ {| c_namespace := "femtodreamparticle"; c_name := "Children";
                         c_getter := "children"; c_kind := SelfArrayIndexColumn |} ])
    by (vm_compute; reflexivity).
  rewrite Hself. constructor; [vm_compute; reflexivity | constructor].
Qed.

(** ** The complete name tables *)

(** X5.  Unlike [ParticleOriginMCTruthName] and [TempFitVarName],
    [ParticleTypeName], [TrackTypeName]
    and [MCTypeName] have one initialiser per slot and one slot per kind:
    every kind finds a name, and different kinds find different names.
    Only the reconstructed MC type has the empty name, as written. *)
Theorem complete_name_tables :
  (forall t, is_particle_kind t = true ->
     exists s, subscript ParticleTypeName (ParticleType_value t) = Some s
               /\ s <> EmptyString)
  /\ (forall t1 t2, is_particle_kind t1 = true -> is_particle_kind t2 = true ->
        subscript ParticleTypeName (ParticleType_value t1)
        = subscript ParticleTypeName (ParticleType_value t2) -> t1 = t2)
  /\ (forall t, is_track_type t = true ->
        exists s, subscript TrackTypeName (TrackType_value t) = Some s
                  /\ s <> EmptyString)
  /\ (forall t1 t2, is_track_type t1 = true -> is_track_type t2 = true ->
        subscript TrackTypeName (TrackType_value t1)
        = subscript TrackTypeName (TrackType_value t2) -> t1 = t2)
  /\ (forall t, is_mc_type t = true ->
        exists s, subscript MCTypeName (MCType_value t) = Some s
                  /\ (s = EmptyString <-> t = kRecon))
  /\ subscript ParticleTypeName (ParticleType_value kNParticleTypes) = None
  /\ subscript TrackTypeName (TrackType_value kNTrackTypes) = None
  /\ subscript MCTypeName (MCType_value kNMCTypes) = None.
Proof.
  split.
  { intros t H; destruct t; try discriminate H;
      eexists; (split; [reflexivity | discriminate]). }
  split.
  { intros t1 t2 H1 H2 H; destruct t1; try discriminate H1;
      destruct t2; try discriminate H2; try reflexivity; discriminate H. }
  split.
  { intros t H; destruct t; try discriminate H;
      eexists; (split; [reflexivity | discriminate]). }
  split.
  { intros t1 t2 H1 H2 H; destruct t1; try discriminate H1;
      destruct t2; try discriminate H2; try reflexivity; discriminate H. }
  split.
  { intros t H; destruct t; try discriminate H;
      eexists; (split; [reflexivity | split; intros H'; try reflexivity;
                                        discriminate H']). }
  repeat split.
Qed.

(** X6.  [TempFitVarName] follows the comment of the [TempFitVar] column
    (track: DCA_xy, V0: CPA): tracks, V0 children and cascade bachelors
    are named after the transverse DCA, V0s and cascades after the cosine
    of the pointing angle. *)
Theorem TempFitVarName_observables (t : ParticleType) :
  (subscript TempFitVarName (ParticleType_value t) = Some "/hDCAxy"%string
   <-> t = kTrack \/ t = kV0Child \/ t = kCascadeBachelor)
  /\ (subscript TempFitVarName (ParticleType_value t) = Some "/hCPA"%string
      <-> t = kV0 \/ t = kCascade).
Proof.
  destruct t; cbn; (split; split; intros H;
    try discriminate H; try tauto;
    try (repeat (destruct H as [H | H]; try discriminate H))).
Qed.

(** ** Products of binary32 values *)

Lemma binary_round_aux_opp (s : bool) (m e : Z) (l : location) :
  binary_round_aux F32.prec F32.emax (negb s) m e l
  = SFopp (binary_round_aux F32.prec F32.emax s m e l).
Proof.
  unfold binary_round_aux.
  destruct (shr_fexp F32.prec F32.emax m e l) as [mrs' e'].
  destruct (shr_fexp F32.prec F32.emax
              (round_nearest_even (shr_m mrs') (loc_of_shr_record mrs')) e'
              loc_Exact) as [mrs'' e''].
  destruct (shr_m mrs''); [reflexivity | | reflexivity].
  destruct (e'' <=? F32.emax - F32.prec); reflexivity.
Qed.

Lemma mul_opp_l (x y : F32.float) :
  F32.mul (F32.opp x) y = F32.opp (F32.mul x y).
Proof.
  destruct x as [sx | sx | | sx mx ex], y as [sy | sy | | sy my ey];
    try reflexivity;
    try (destruct sx, sy; reflexivity).
  unfold F32.mul, F32.opp, SFmul, SFopp at 1.
  rewrite <- binary_round_aux_opp.
  destruct sx, sy; reflexivity.
Qed.

Lemma mul_opp_r (x y : F32.float) :
  F32.mul x (F32.opp y) = F32.opp (F32.mul x y).
Proof.
  destruct x as [sx | sx | | sx mx ex], y as [sy | sy | | sy my ey];
    try reflexivity;
    try (destruct sx, sy; reflexivity).
  unfold F32.mul, F32.opp, SFmul, SFopp at 1.
  rewrite <- binary_round_aux_opp.
  destruct sx, sy; reflexivity.
Qed.

Lemma mul_nan_l (y : F32.float) : F32.mul F32.nan y = F32.nan.
Proof. destruct y; reflexivity. Qed.

Lemma mul_zero_l (s : bool) (y : F32.float) :
  F32.mul (S754_zero s) y = zero_times s y.
Proof. destruct y as [t | t | | t my ey]; reflexivity. Qed.

(** X7.  A NaN [pt] makes the four momentum components NaN.  A vanishing
    [pt] makes a component a zero when the libm returns a finite value and
    NaN when it returns an infinity or NaN, so that beyond the overflow of
    [sinh] and [cosh] a track at rest has no momentum at all. *)
Theorem momentum_of_special_pt (m : Libm) (r : FDParticle) :
  (pt r = F32.nan ->
   px m r = F32.nan /\ py m r = F32.nan /\ pz m r = F32.nan
   /\ p m r = F32.nan)
  /\ (forall s, pt r = S754_zero s ->
        px m r = zero_times s (m_sin m (phi r))
        /\ py m r = zero_times s (m_cos m (phi r))
        /\ pz m r = zero_times s (m_sinh m (eta r))
        /\ p m r = zero_times s (m_cosh m (eta r)))
  /\ (forall s y, F32.is_finite y = true ->
        exists t, zero_times s y = S754_zero t)
  /\ (forall s y, F32.is_finite y = false -> zero_times s y = F32.nan).
Proof.
  unfold px, py, pz, p, Px, Py, Pz, P.
  cbn [binary32 a_mul a_sin a_cos a_sinh a_cosh num].
  split; [intros ->; now rewrite !mul_nan_l | ].
  split; [intros s ->; now rewrite !mul_zero_l | ].
  unfold zero_times.
  split; intros s y ->; [eexists | ]; reflexivity.
Qed.

(** X8.  Mirroring a track, [eta] to [-eta] and [phi] to [-phi], negates
    [px] and [pz] and keeps [py] and [p], for a libm whose [sin] and [sinh]
    are odd and whose [cos] and [cosh] are even at the row's angles.  This
    is an equality of binary32 values for every component that is not NaN;
    a component that is NaN stays NaN, and nothing is said about the sign
    bit of that NaN, which the model does not have. *)
Theorem mirrored_track (m : Libm) (r : FDParticle)
    (Hsin : m_sin m (F32.opp (phi r)) = F32.opp (m_sin m (phi r)))
    (Hcos : m_cos m (F32.opp (phi r)) = m_cos m (phi r))
    (Hsinh : m_sinh m (F32.opp (eta r)) = F32.opp (m_sinh m (eta r)))
    (Hcosh : m_cosh m (F32.opp (eta r)) = m_cosh m (eta r)) :
  let r' := with_kinematics r (pt r) (F32.opp (eta r)) (F32.opp (phi r)) in
  (if F32.is_nan (px m r) then F32.is_nan (px m r') = true
   else px m r' = F32.opp (px m r))
  /\ (if F32.is_nan (py m r) then F32.is_nan (py m r') = true
      else py m r' = py m r)
  /\ (if F32.is_nan (pz m r) then F32.is_nan (pz m r') = true
      else pz m r' = F32.opp (pz m r))
  /\ (if F32.is_nan (p m r) then F32.is_nan (p m r') = true
      else p m r' = p m r).
Proof.
  unfold px, py, pz, p, Px, Py, Pz, P.
  cbn [binary32 a_mul a_sin a_cos a_sinh a_cosh num with_kinematics pt eta phi].
  rewrite Hsin, Hcos, Hsinh, Hcosh, !mul_opp_r.
  repeat split;
    match goal with |- if F32.is_nan ?x then _ else _ =>
      destruct x; reflexivity end.
Qed.

Lemma mirrored_track_witness :
  let r := central_track in
  let r' := with_kinematics r (pt r) (F32.opp (eta r)) (F32.opp (phi r)) in
  (if F32.is_nan (px RefLibm.libm r) then F32.is_nan (px RefLibm.libm r') = true
   else px RefLibm.libm r' = F32.opp (px RefLibm.libm r))
  /\ (if F32.is_nan (py RefLibm.libm r) then F32.is_nan (py RefLibm.libm r') = true
      else py RefLibm.libm r' = py RefLibm.libm r)
  /\ (if F32.is_nan (pz RefLibm.libm r) then F32.is_nan (pz RefLibm.libm r') = true
      else pz RefLibm.libm r' = F32.opp (pz RefLibm.libm r))
  /\ (if F32.is_nan (p RefLibm.libm r) then F32.is_nan (p RefLibm.libm r') = true
      else p RefLibm.libm r' = p RefLibm.libm r).
Proof.
  apply (mirrored_track RefLibm.libm central_track); vm_compute; reflexivity.
Defined.

(** ** The last step of the polar angle *)

Lemma double_is_exact (a : F32.float) :
  F32.valid a = true ->
  F32.leb F32.zero a = true ->
  F32.leb a F32.pi_2 = true ->
  F32.to_R (F32.mul F32.two a) = (2 * F32.to_R a)%R.
Proof.
  intros Hv H0 H1.
  destruct a as [s | s | | s m e].
  - destruct s; cbn; lra.
  - destruct s; discriminate.
  - discriminate.
  - destruct s; [discriminate | ]. clear H0.
    unfold F32.leb, SFleb, F32.pi_2, SFcompare in H1.
    destruct (valid_finite_cases _ _ _ Hv) as [[Hd He] | [Hd He]]; clear Hv.
    + assert (He' : e <= -23).
      { destruct (Z.compare_spec e (-23)) as [Heq | Hlt | Hgt];
          [clear H1; lia | clear H1; lia | discriminate H1]. }
      clear H1.
      rewrite mul_two_normal by (assumption || lia).
      cbn [F32.to_R]. rewrite powerRZ_add by lra.
      change (powerRZ 2 1) with (2 * 1)%R. lra.
    + subst e. clear H1. rewrite mul_two_subnormal by assumption.
      cbn [F32.to_R]. rewrite Pos2Z.inj_xO, mult_IZR. lra.
Qed.

(** X9.  The multiplication by [2.f] that ends the polar angle is exact:
    whenever the [atan] of the libm returns a binary32 value between 0 and
    the binary32 value of pi/2, the angle is a finite binary32 value, twice
    that of [atan]. *)
Theorem theta_is_twice_atan (m : Libm) (r : FDParticle)
    (Hv : F32.valid (m_atan m (m_exp m (F32.opp (eta r)))) = true)
    (Hlo : F32.leb F32.zero (m_atan m (m_exp m (F32.opp (eta r)))) = true)
    (Hhi : F32.leb (m_atan m (m_exp m (F32.opp (eta r)))) F32.pi_2 = true) :
  F32.valid (theta m r) = true
  /\ F32.is_finite (theta m r) = true
  /\ F32.to_R (theta m r)
     = (2 * F32.to_R (m_atan m (m_exp m (F32.opp (eta r)))))%R.
Proof.
  destruct (double_in_range _ Hv Hlo Hhi) as (Hv2 & H0 & H1).
  split; [exact Hv2 | ]. split.
  - change (theta m r)
      with (F32.mul F32.two (m_atan m (m_exp m (F32.opp (eta r))))) in *.
    destruct (F32.mul F32.two (m_atan m (m_exp m (F32.opp (eta r)))))
      as [s | s | | s m' e']; try reflexivity; try discriminate H0.
    destruct s; [discriminate H0 | discriminate H1].
  - apply (double_is_exact _ Hv Hlo Hhi).
Qed.


Lemma theta_is_twice_atan_witness :
  F32.valid (theta RefLibm.libm central_track) = true
  /\ F32.is_finite (theta RefLibm.libm central_track) = true
  /\ F32.to_R (theta RefLibm.libm central_track)
     = (2 * F32.to_R (m_atan RefLibm.libm
                        (m_exp RefLibm.libm (F32.opp (eta central_track)))))%R.
Proof.
  apply (theta_is_twice_atan RefLibm.libm central_track);
    vm_compute; reflexivity.
Defined.

(** ** More on the crossed-rows ratio *)

Lemma powerRZ_2_neg (k : Z) : 0 <= k -> (IZR (2 ^ k) * powerRZ 2 (- k) = 1)%R.
Proof.
  intros Hk.
  rewrite <- (Z2Nat.id k) at 1 by assumption.
  rewrite <- pow_IZR, pow_powerRZ, Z2Nat.id by assumption.
  rewrite <- powerRZ_add by lra.
  now rewrite Z.add_opp_diag_r.
Qed.

Lemma cast_check_all : forallb cast_check uint8_values = true.
Proof. vm_compute. reflexivity. Qed.

(** X10.  The conversion of a stored 8-bit count to [float] is exact. *)
Theorem count_to_float_is_exact (z : Z) (Hz : is_uint8 z = true) :
  F32.is_finite (F32.of_Z z) = true
  /\ F32.valid (F32.of_Z z) = true
  /\ F32.to_R (F32.of_Z z) = IZR z.
Proof.
  pose proof cast_check_all as H. rewrite forallb_forall in H.
  specialize (H z (uint8_values_spec z Hz)). unfold cast_check in H.
  assert (Hv : forallb (fun z => F32.valid (F32.of_Z z)) uint8_values = true)
    by (vm_compute; reflexivity).
  rewrite forallb_forall in Hv. specialize (Hv z (uint8_values_spec z Hz)).
  destruct (F32.of_Z z) as [s | s | | s m e]; try discriminate H.
  - destruct s; [discriminate H | ]. apply Z.eqb_eq in H. subst z.
    repeat split; assumption.
  - destruct s; [discriminate H | ].
    rewrite !andb_true_iff, Z.leb_le, Z.eqb_eq in H. destruct H as [[He Hm] _].
    repeat split; try assumption.
    cbn [F32.to_R]. rewrite Hm, mult_IZR.
    replace e with (- - e) at 2 by lia.
    rewrite Rmult_1_l, Rmult_assoc, powerRZ_2_neg by lia. lra.
Qed.

Lemma count_to_float_is_exact_witness :
  F32.is_finite (F32.of_Z 159) = true
  /\ F32.valid (F32.of_Z 159) = true
  /\ F32.to_R (F32.of_Z 159) = 159%R.
Proof. exact (count_to_float_is_exact 159 eq_refl). Defined.

Lemma uint8_positive_spec (z : Z) :
  is_uint8 z = true -> z <> 0 -> In z positive_counts.
Proof.
  unfold is_uint8. rewrite andb_true_iff, !Z.leb_le.
  intros [H0 H1] Hz. unfold positive_counts.
  apply in_map_iff. exists (Z.to_nat z). split; [lia | apply in_seq; lia].
Qed.

(** A table built by [tabulate] answers a path of its depth with the
    tabulated function. *)
Lemma get_tabulate (A : Type) (d : A) (n : nat) (g : positive -> A) (p : positive) :
  Pos.size_nat p = S n -> get d (tabulate n g) p = g p.
Proof.
  revert g p. induction n as [ | n IH]; intros g p Hp.
  - destruct p as [p | p | ]; cbn in Hp; try reflexivity;
      destruct p; discriminate.
  - destruct p as [p | p | ]; cbn in Hp; [ | | discriminate];
      cbn [tabulate get]; apply (IH (fun q => g _)); congruence.
Qed.

Lemma path_size_all :
  forallb (fun z => Nat.eqb (Pos.size_nat (path z)) 9) uint8_values = true.
Proof. vm_compute. reflexivity. Qed.

Lemma path_size (z : Z) : is_uint8 z = true -> Pos.size_nat (path z) = 9%nat.
Proof.
  intros Hz. pose proof path_size_all as H. rewrite forallb_forall in H.
  apply Nat.eqb_eq, H, uint8_values_spec, Hz.
Qed.

(** The table of ratios holds the ratio of every pair of 8-bit counts. *)
Lemma lookup_ratios (f c : Z) :
  is_uint8 f = true -> is_uint8 c = true -> lookup ratios f c = ratio f c.
Proof.
  intros Hf Hc. unfold lookup, ratios.
  rewrite (get_tabulate _ _ 8 _ (path f) (path_size f Hf)).
  rewrite (get_tabulate _ _ 8 _ (path c) (path_size c Hc)).
  unfold is_uint8 in Hf, Hc. rewrite andb_true_iff, !Z.leb_le in Hf, Hc.
  unfold path. rewrite !Z2Pos.id by lia. f_equal; lia.
Qed.

Lemma ratio_checks_all : ratio_checks ratios = true.
Proof. vm_compute. reflexivity. Qed.

(** What the checks give for a table that holds the ratios. *)
Section CheckedTable.

Variable t : tree (tree F32.float).
Hypothesis Hchecks : ratio_checks t = true.
Hypothesis Hlookup :
  forall f c, is_uint8 f = true -> is_uint8 c = true -> lookup t f c = ratio f c.

Lemma checked_order (f c : Z) :
  is_uint8 f = true -> is_uint8 c = true -> f <> 0 ->
  let q := ratio f c in
  (F32.ltb q F32.one = true <-> c < f)
  /\ (F32.eqb q F32.one = true <-> c = f)
  /\ (F32.ltb F32.one q = true <-> f < c)
  /\ F32.leb F32.zero q = true
  /\ F32.leb q (F32.of_Z 255) = true.
Proof.
  intros Hf Hc Hf0. pose proof Hchecks as H. unfold ratio_checks in H.
  apply andb_prop in H. destruct H as [H _].
  apply andb_prop in H. destruct H as [H _].
  rewrite forallb_forall in H. specialize (H f (uint8_values_spec f Hf)).
  rewrite forallb_forall in H. specialize (H c (uint8_values_spec c Hc)).
  unfold ratio_order_check in H. rewrite (Hlookup f c Hf Hc) in H.
  destruct (Z.eqb_spec f 0) as [ | _]; [contradiction | ].
  rewrite !andb_true_iff in H. destruct H as [[[[Hlt Heq] Hgt] H0] H255].
  apply eqb_prop in Hlt, Heq, Hgt.
  cbv zeta. rewrite Hlt, Heq, Hgt, Z.ltb_lt, Z.eqb_eq, Z.ltb_lt.
  repeat split; auto.
Qed.

Lemma checked_step (f c : Z) :
  is_uint8 f = true -> is_uint8 c = true -> f <> 0 -> c <> 0 ->
  F32.ltb (ratio f (c - 1)) (ratio f c) = true
  /\ (f <> 255 -> F32.ltb (ratio (f + 1) c) (ratio f c) = true).
Proof.
  intros Hf Hc Hf0 Hc0. pose proof Hchecks as H. unfold ratio_checks in H.
  apply andb_prop in H. destruct H as [H _].
  apply andb_prop in H. destruct H as [_ H].
  rewrite forallb_forall in H. specialize (H f (uint8_positive_spec f Hf Hf0)).
  rewrite forallb_forall in H. specialize (H c (uint8_positive_spec c Hc Hc0)).
  unfold ratio_step_check in H. apply andb_prop in H. destruct H as [Hrow Hcol].
  assert (B : 0 <= f <= 255 /\ 0 <= c <= 255).
  { unfold is_uint8 in Hf, Hc. rewrite andb_true_iff, !Z.leb_le in Hf, Hc. lia. }
  assert (U : forall z, 0 <= z <= 255 -> is_uint8 z = true).
  { intros z Hz. unfold is_uint8. rewrite andb_true_iff, !Z.leb_le. lia. }
  split.
  - rewrite !Hlookup in Hrow by (apply U; lia). exact Hrow.
  - intros Hf255. apply orb_prop in Hcol. destruct Hcol as [Hcol | Hcol].
    + apply Z.eqb_eq in Hcol. contradiction.
    + rewrite !Hlookup in Hcol by (apply U; lia). exact Hcol.
Qed.

Lemma checked_scale (f c : Z) (k : nat) :
  is_uint8 f = true -> is_uint8 c = true -> f <> 0 -> c <> 0 ->
  (2 <= k)%nat -> Z.of_nat k * f <= 255 -> Z.of_nat k * c <= 255 ->
  ratio (Z.of_nat k * f) (Z.of_nat k * c) = ratio f c.
Proof.
  intros Hf Hc Hf0 Hc0 Hk Hkf Hkc.
  pose proof Hchecks as H. unfold ratio_checks in H.
  apply andb_prop in H. destruct H as [_ H].
  rewrite forallb_forall in H. specialize (H f (uint8_positive_spec f Hf Hf0)).
  rewrite forallb_forall in H. specialize (H c (uint8_positive_spec c Hc Hc0)).
  unfold ratio_scale_check in H. rewrite forallb_forall in H.
  assert (B : 0 <= f <= 255 /\ 0 <= c <= 255).
  { unfold is_uint8 in Hf, Hc. rewrite andb_true_iff, !Z.leb_le in Hf, Hc. lia. }
  assert (U : forall z, 0 <= z <= 255 -> is_uint8 z = true).
  { intros z Hz. unfold is_uint8. rewrite andb_true_iff, !Z.leb_le. lia. }
  specialize (H k).
  rewrite !Hlookup in H by (apply U; lia).
  apply same_eq, H. apply in_seq.
  assert (Z.of_nat k <= 255 / Z.max f c).
  { apply Z.div_le_lower_bound; [lia | ]. rewrite Z.mul_comm. nia. }
  lia.
Qed.

End CheckedTable.

Ltac order_facts :=
  repeat match goal with
  | H : (_ ?= _) = Eq |- _ => apply -> Z.compare_eq_iff in H
  | H : (?a ?= ?b) = Lt |- _ => change (a < b) in H
  | H : (?a ?= ?b) = Gt |- _ => change (a > b) in H
  end.

(** [<] on [float] is transitive. *)
Lemma ltb_trans (x y z : F32.float) :
  F32.ltb x y = true -> F32.ltb y z = true -> F32.ltb x z = true.
Proof.
  unfold F32.ltb, SFltb, SFcompare.
  destruct x as [sx | sx | | sx mx ex], y as [sy | sy | | sy my ey],
    z as [sz | sz | | sz mz ez];
    try discriminate; try (destruct sx, sy, sz; discriminate || reflexivity);
    try (destruct sx, sy; discriminate || reflexivity);
    try (destruct sx, sz; discriminate || reflexivity);
    try (destruct sy, sz; discriminate || reflexivity).
  change (PosDef.Pos.compare_cont Eq mx my) with (mx ?= my)%positive.
  change (PosDef.Pos.compare_cont Eq my mz) with (my ?= mz)%positive.
  change (PosDef.Pos.compare_cont Eq mx mz) with (mx ?= mz)%positive.
  rewrite !Pos2Z.inj_compare.
  destruct sx, sy, sz; try discriminate; try reflexivity;
    destruct (ex ?= ey) eqn:E1, (ey ?= ez) eqn:E2, (ex ?= ez) eqn:E3;
    try discriminate; try reflexivity; order_facts; try lia;
    destruct (Z.pos mx ?= Z.pos my) eqn:M1, (Z.pos my ?= Z.pos mz) eqn:M2,
      (Z.pos mx ?= Z.pos mz) eqn:M3;
    cbn; intros; try discriminate; try reflexivity; order_facts; lia.
Qed.

(** A sequence that grows at every step grows over every stretch. *)
Lemma ltb_chain (g : Z -> F32.float) (lo hi : Z) :
  (forall i, lo < i <= hi -> F32.ltb (g (i - 1)) (g i) = true) ->
  forall a b, lo <= a -> a < b -> b <= hi -> F32.ltb (g a) (g b) = true.
Proof.
  intros Hstep a b Hlo Hab Hhi.
  assert (G : forall n : nat, a + 1 + Z.of_nat n <= hi ->
                              F32.ltb (g a) (g (a + 1 + Z.of_nat n)) = true).
  { induction n as [ | n IH]; intros Hn.
    - specialize (Hstep (a + 1 + Z.of_nat 0)).
      replace (a + 1 + Z.of_nat 0 - 1) with a in Hstep by lia.
      apply Hstep. lia.
    - apply (ltb_trans _ (g (a + 1 + Z.of_nat n))); [apply IH; lia | ].
      specialize (Hstep (a + 1 + Z.of_nat (S n))).
      replace (a + 1 + Z.of_nat (S n) - 1) with (a + 1 + Z.of_nat n) in Hstep by lia.
      apply Hstep. lia. }
  specialize (G (Z.to_nat (b - a - 1))).
  replace (a + 1 + Z.of_nat (Z.to_nat (b - a - 1))) with b in G by lia.
  apply G. lia.
Qed.

(** X11.  With a findable cluster, the ratio is below, equal to or above 1
    exactly when the crossed rows are fewer than, as many as or more than
    the findable clusters; it lies between 0 and 255. *)
Theorem ratio_compares_with_one (m : Libm) (r : FDExtParticle_counts)
    (Hr : FDExtParticle_counts_typed r = true)
    (Hf : tpcNClsFindable r <> 0) :
  let q := tpcCrossedRowsOverFindableCls m r in
  (F32.ltb q F32.one = true <-> tpcNClsCrossedRows r < tpcNClsFindable r)
  /\ (F32.eqb q F32.one = true <-> tpcNClsCrossedRows r = tpcNClsFindable r)
  /\ (F32.ltb F32.one q = true <-> tpcNClsFindable r < tpcNClsCrossedRows r)
  /\ F32.leb F32.zero q = true
  /\ F32.leb q (F32.of_Z 255) = true.
Proof.
  destruct r as [f c]. cbn [tpcNClsFindable tpcNClsCrossedRows] in *.
  unfold FDExtParticle_counts_typed in Hr.
  cbn [tpcNClsFindable tpcNClsCrossedRows] in Hr.
  apply andb_prop in Hr. destruct Hr as [Hf8 Hc8].
  change (tpcCrossedRowsOverFindableCls m (Build_FDExtParticle_counts f c))
    with (ratio f c).
  exact (checked_order ratios ratio_checks_all lookup_ratios f c Hf8 Hc8 Hf).
Qed.

Lemma ratio_compares_with_one_witness :
  let q := tpcCrossedRowsOverFindableCls RefLibm.libm (counts 159 152) in
  (F32.ltb q F32.one = true <-> 152 < 159)
  /\ (F32.eqb q F32.one = true <-> 152 = 159)
  /\ (F32.ltb F32.one q = true <-> 159 < 152)
  /\ F32.leb F32.zero q = true
  /\ F32.leb q (F32.of_Z 255) = true.
Proof.
  apply (ratio_compares_with_one RefLibm.libm (counts 159 152) eq_refl).
  cbn. discriminate.
Defined.

(** X12.  For 8-bit counts [a < b] and [c] not 0: with [c] findable
    clusters the ratio of [a] crossed rows is strictly below that of [b]
    crossed rows, and with [c] crossed rows the ratio over [b] findable
    clusters is strictly below that over [a], when [a] is not 0.  Rounding
    never merges the ratios of two different counts. *)
Theorem ratio_monotone (m : Libm) (a b c : Z)
    (Ha : is_uint8 a = true) (Hb : is_uint8 b = true) (Hc : is_uint8 c = true)
    (Hab : a < b) (Hc0 : c <> 0) :
  F32.ltb (tpcCrossedRowsOverFindableCls m (counts c a))
          (tpcCrossedRowsOverFindableCls m (counts c b)) = true
  /\ (a <> 0 ->
      F32.ltb (tpcCrossedRowsOverFindableCls m (counts b c))
              (tpcCrossedRowsOverFindableCls m (counts a c)) = true).
Proof.
  assert (B : 0 <= a <= 255 /\ 0 <= b <= 255 /\ 0 <= c <= 255).
  { unfold is_uint8 in *. rewrite andb_true_iff, !Z.leb_le in *. lia. }
  assert (U : forall z, 0 <= z <= 255 -> is_uint8 z = true).
  { intros z Hz. unfold is_uint8. rewrite andb_true_iff, !Z.leb_le. lia. }
  change (tpcCrossedRowsOverFindableCls m (counts c a)) with (ratio c a).
  change (tpcCrossedRowsOverFindableCls m (counts c b)) with (ratio c b).
  change (tpcCrossedRowsOverFindableCls m (counts a c)) with (ratio a c).
  change (tpcCrossedRowsOverFindableCls m (counts b c)) with (ratio b c).
  split.
  - apply (ltb_chain (ratio c) 0 255); try lia.
    intros i Hi. apply (checked_step ratios ratio_checks_all lookup_ratios c i); try lia; try assumption. apply U. lia.
  - intros Ha0.
    pose proof (ltb_chain (fun i => ratio (- i) c) (-255) (-1)) as G.
    cbv beta in G. specialize (fun Hs => G Hs (- b) (- a)).
    rewrite !Z.opp_involutive in G. apply G; try lia.
    intros i Hi.
    replace (- (i - 1)) with (- i + 1) by lia.
    apply (checked_step ratios ratio_checks_all lookup_ratios (- i) c); try lia; try assumption. apply U. lia.
Qed.

Lemma ratio_monotone_witness :
  F32.ltb (tpcCrossedRowsOverFindableCls RefLibm.libm (counts 159 151))
          (tpcCrossedRowsOverFindableCls RefLibm.libm (counts 159 152)) = true
  /\ (151 <> 0 ->
      F32.ltb (tpcCrossedRowsOverFindableCls RefLibm.libm (counts 152 159))
              (tpcCrossedRowsOverFindableCls RefLibm.libm (counts 151 159)) = true).
Proof.
  apply (ratio_monotone RefLibm.libm 151 152 159 eq_refl eq_refl eq_refl);
    [reflexivity | discriminate].
Defined.

(** X13.  The ratio depends on the quotient of the counts only:
    multiplying both counts by the same factor, within the 8 bits, leaves
    the ratio unchanged, bit for bit. *)
Theorem ratio_of_multiples (m : Libm) (r : FDExtParticle_counts) (k : Z)
    (Hr : FDExtParticle_counts_typed r = true)
    (Hk : 0 < k)
    (Hkr : FDExtParticle_counts_typed
             (counts (k * tpcNClsFindable r) (k * tpcNClsCrossedRows r)) = true) :
  tpcCrossedRowsOverFindableCls m
    (counts (k * tpcNClsFindable r) (k * tpcNClsCrossedRows r))
  = tpcCrossedRowsOverFindableCls m r.
Proof.
  destruct r as [f c]. cbn [tpcNClsFindable tpcNClsCrossedRows] in *.
  unfold FDExtParticle_counts_typed, counts in *.
  cbn [tpcNClsFindable tpcNClsCrossedRows] in *.
  apply andb_prop in Hr, Hkr. destruct Hr as [Hf8 Hc8], Hkr as [Hkf Hkc].
  change (tpcCrossedRowsOverFindableCls m (Build_FDExtParticle_counts f c))
    with (ratio f c).
  change (tpcCrossedRowsOverFindableCls m
            (Build_FDExtParticle_counts (k * f) (k * c)))
    with (ratio (k * f) (k * c)).
  assert (B : 0 <= f <= 255 /\ 0 <= c <= 255 /\ k * f <= 255 /\ k * c <= 255).
  { unfold is_uint8 in *. rewrite andb_true_iff, !Z.leb_le in *. lia. }
  destruct (Z.eq_dec k 1) as [-> | Hk1].
  { now rewrite !Z.mul_1_l. }
  destruct (Z.eq_dec f 0) as [-> | Hf0].
  { rewrite Z.mul_0_r.
    destruct (Z.eq_dec c 0) as [-> | Hc0]; [now rewrite Z.mul_0_r | ].
    (* c / 0 is +inf for every positive c *)
    assert (Hinf : forall z, is_uint8 z = true -> z <> 0 -> ratio 0 z = F32.pinf).
    { intros z Hz Hz0.
      pose proof (ratio_check_uint8 0 z eq_refl Hz) as Hc.
      unfold ratio_check in Hc. cbn [Z.eqb] in Hc.
      destruct (Z.eqb_spec z 0); [contradiction | ].
      now apply same_eq in Hc. }
    rewrite (Hinf c Hc8 Hc0). apply Hinf; [assumption | nia]. }
  destruct (Z.eq_dec c 0) as [-> | Hc0].
  { rewrite Z.mul_0_r.
    assert (Hz : forall z, is_uint8 z = true -> z <> 0 -> ratio z 0 = F32.zero).
    { intros z Hz Hz0.
      pose proof (ratio_check_uint8 z 0 Hz eq_refl) as Hc.
      unfold ratio_check in Hc.
      destruct (Z.eqb_spec z 0); [contradiction | ].
      cbn [Z.eqb] in Hc. now apply same_eq in Hc. }
    rewrite (Hz f Hf8 Hf0). apply Hz; [assumption | nia]. }
  pose proof (checked_scale ratios ratio_checks_all lookup_ratios f c (Z.to_nat k)
                Hf8 Hc8 Hf0 Hc0) as H.
  rewrite Z2Nat.id in H by lia. apply H; lia.
Qed.

Lemma ratio_of_multiples_witness :
  tpcCrossedRowsOverFindableCls RefLibm.libm (counts (3 * 53) (3 * 50))
  = tpcCrossedRowsOverFindableCls RefLibm.libm (counts 53 50).
Proof.
  exact (ratio_of_multiples RefLibm.libm (counts 53 50) 3
           eq_refl eq_refl eq_refl).
Defined.

(** ** The formulas over the reals *)

Lemma sin_cos_2atan (u : R) :
  (sin (2 * atan u) = 2 * u / (1 + u * u)
   /\ cos (2 * atan u) = (1 - u * u) / (1 + u * u))%R.
Proof.
  assert (Hpos : (0 < 1 + u * u)%R) by nra.
  assert (Hs : (sqrt (1 + u²) * sqrt (1 + u²) = 1 + u * u)%R).
  { apply sqrt_sqrt. unfold Rsqr. lra. }
  rewrite sin_2a, cos_2a, sin_atan, cos_atan.
  set (s := sqrt (1 + u²)) in *.
  assert (Hne : s <> 0%R) by (intros H0; rewrite H0 in Hs; lra).
  rewrite <- Hs. split; field; assumption.
Qed.

(** X14.  Over the reals the polar angle is the angle between the momentum
    and the z axis: [p cos(theta) = pz] and [p sin(theta) = pt]. *)
Theorem exact_polar_angle_of_momentum (pt eta : R) :
  (P exact pt eta * cos (Theta exact eta) = Pz exact pt eta
   /\ P exact pt eta * sin (Theta exact eta) = pt)%R.
Proof.
  unfold P, Pz, Theta.
  cbn [exact a_mul a_cosh a_sinh a_atan a_exp a_opp a_lit num].
  destruct (sin_cos_2atan (exp (- eta))) as [Hsin Hcos].
  rewrite Hsin, Hcos. unfold cosh, sinh.
  pose proof (exp_pos (- eta)) as Hn.
  assert (H1 : (exp eta * exp (- eta) = 1)%R).
  { rewrite <- exp_plus, Rplus_opp_r. apply exp_0. }
  assert (Hd : (1 + exp (- eta) * exp (- eta) <> 0)%R) by nra.
  assert (Hb : exp (- eta) <> 0%R) by lra.
  assert (Ha : exp eta = (/ exp (- eta))%R).
  { apply (Rmult_eq_reg_r (exp (- eta))); [ | assumption].
    rewrite H1. field. assumption. }
  rewrite Ha. split; field; split; assumption.
Qed.

(** X15.  Over the reals the polar angle falls strictly as the
    pseudorapidity grows, and mirroring the pseudorapidity mirrors the
    angle: [theta(-eta) = pi - theta(eta)]. *)
Theorem exact_Theta_decreasing_mirror :
  (forall x y : R, (x < y)%R -> (Theta exact y < Theta exact x)%R)
  /\ (forall x : R, Theta exact (- x)%R = (PI - Theta exact x)%R).
Proof.
  split.
  - intros x y Hxy. unfold Theta.
    cbn [exact a_mul a_atan a_exp a_opp a_lit num].
    assert (H : (atan (exp (- y)) < atan (exp (- x)))%R).
    { apply atan_increasing, exp_increasing. lra. }
    lra.
  - intros x. unfold Theta.
    cbn [exact a_mul a_atan a_exp a_opp a_lit num].
    rewrite Ropp_involutive.
    replace (exp x) with (/ exp (- x))%R.
    + rewrite atan_inv by apply exp_pos. lra.
    + rewrite exp_Ropp, Rinv_inv. reflexivity.
Qed.
